(** * Worker requests: outbound request construction and response checking

    A shallow embedding of [packages/server/src/utilities/workerRequests.ts]:
    [ensureHeadersIsObject], [request] and [checkResponse].

    JavaScript values are an inductive type, exceptions are an error
    monad, the header container is node-fetch's [Headers] class (a map
    from header names, compared without regard to case, to the list of
    values appended under that name), and a request context's inbound
    headers are a finite map from names to one value or a list of values. *)

From Stdlib Require Import ZArith Ascii String List Bool Permutation DecimalString.
From stdpp Require Import base option list gmap strings.

Local Open Scope string_scope.
Local Open Scope Z_scope.
Local Set Warnings "-register-all".

(** ** Exceptions *)

(** What a call can raise.  [ThrownValue] is [throw msg] with a bare
    string, [HttpError] is the request context's [ctx.throw(status, msg)],
    [InvalidJson] is the rejection of [response.json()], and [TypeError] is
    the language's or the header container's own error. *)
Inductive Failure : Type :=
| TypeError (msg : string)
| InvalidJson
| ThrownValue (msg : string)
| HttpError (status : Z) (msg : string).

Inductive result (A : Type) : Type :=
| Ok (a : A)
| Throw (f : Failure).

Arguments Ok {A} a.
Arguments Throw {A} f.

Definition bind {A B : Type} (r : result A) (k : A -> result B) : result B :=
  match r with
  | Ok a => k a
  | Throw f => Throw f
  end.

Notation "x <- e1 ;; e2" := (bind e1 (fun x => e2))
  (at level 100, e1 at next level, right associativity).

Definition returns {A : Type} (r : result A) : Prop := exists a, r = Ok a.

(** ** JavaScript values *)

Module Js.

(** Numbers are the integers; an object is its own enumerable properties
    in enumeration order. *)
Inductive Value : Type :=
| Undefined
| Null
| Bool (b : bool)
| Number (n : Z)
| Str (s : string)
| Array (elems : list Value)
| Object (props : list (string * Value)).

(** [!!v] *)
Definition truthy (v : Value) : bool :=
  match v with
  | Undefined | Null => false
  | Bool b => b
  | Number n => negb (n =? 0)
  | Str s => negb (String.eqb s "")
  | Array _ | Object _ => true
  end.

(** [typeof v === "object"] *)
Definition typeof_object (v : Value) : bool :=
  match v with
  | Null | Array _ | Object _ => true
  | _ => false
  end.

(** [Object.keys(v).length], for a [v] that is neither [null] nor
    [undefined]: the indices of a string or an array, the property names
    of an object, nothing for a boolean or a number. *)
Definition keys_length (v : Value) : nat :=
  match v with
  | Str s => String.length s
  | Array elems => List.length elems
  | Object props => List.length props
  | _ => O
  end.

(** [o[key]] on an object's own properties. *)
Fixpoint own_property (props : list (string * Value)) (key : string) : Value :=
  match props with
  | [] => Undefined
  | (k, v) :: rest => if String.eqb k key then v else own_property rest key
  end.

(** [v[key]] on a value that has properties, for a [key] that no
    prototype defines. *)
Definition member (v : Value) (key : string) : Value :=
  match v with
  | Object props => own_property props key
  | _ => Undefined
  end.

(** [v[key]]: [None] is the TypeError raised on [null] and [undefined]. *)
Definition get_property (v : Value) (key : string) : option Value :=
  match v with
  | Undefined | Null => None
  | _ => Some (member v key)
  end.

(** An object or an array with at least one key. *)
Definition nonempty_object (v : Value) : bool :=
  match v with
  | Object (_ :: _) | Array (_ :: _) => true
  | _ => false
  end.

(** [a ?? b] *)
Definition nullish (a b : Value) : Value :=
  match a with
  | Undefined | Null => b
  | _ => a
  end.

(** [hay.includes(needle)] *)
Fixpoint includes (hay needle : string) : bool :=
  String.prefix needle hay ||
  match hay with
  | EmptyString => false
  | String _ rest => includes rest needle
  end.

Definition lower_ascii (c : ascii) : ascii :=
  let n := N_of_ascii c in
  if ((65 <=? n) && (n <=? 90))%N then ascii_of_N (n + 32) else c.

(** [s.toLowerCase()] on the code units below 128. *)
Fixpoint toLowerCase (s : string) : string :=
  match s with
  | EmptyString => EmptyString
  | String c rest => String (lower_ascii c) (toLowerCase rest)
  end.

End Js.

(** ** The header container *)

Module Headers.

(** The container's map: header names as first written, each with the
    values appended under it. *)
Definition t : Type := list (string * list string).

Definition empty : t := [].

Definition in_range (lo hi : N) (c : ascii) : bool :=
  ((lo <=? N_of_ascii c) && (N_of_ascii c <=? hi))%N.

(** The characters of an HTTP token: letters, digits and
    [^ _ ` - ! # $ % & ' * + . | ~]. *)
Definition token_char (c : ascii) : bool :=
  in_range 97 122 c || in_range 65 90 c || in_range 48 57 c ||
  existsb (fun n => (N_of_ascii c =? n)%N)
    [94; 95; 96; 45; 33; 35; 36; 37; 38; 39; 42; 43; 46; 124; 126]%N.

(** The characters of a header value: tab, the printable ASCII range and
    the code units from 128 to 255. *)
Definition value_char (c : ascii) : bool :=
  (N_of_ascii c =? 9)%N || in_range 32 126 c || in_range 128 255 c.

Fixpoint all_chars (p : ascii -> bool) (s : string) : bool :=
  match s with
  | EmptyString => true
  | String c rest => p c && all_chars p rest
  end.

Definition legal_name (name : string) : bool :=
  all_chars token_char name && negb (String.eqb name "").

Definition legal_value (value : string) : bool :=
  all_chars value_char value.

Definition validateName (name : string) : result unit :=
  if legal_name name then Ok tt
  else Throw (TypeError (name +:+ " is not a legal HTTP header name")).

Definition validateValue (value : string) : result unit :=
  if legal_value value then Ok tt
  else Throw (TypeError (value +:+ " is not a legal HTTP header value")).

Definition same_name (a b : string) : bool :=
  String.eqb (Js.toLowerCase a) (Js.toLowerCase b).

(** The key of the map that names the header [name], if there is one. *)
Fixpoint find (map : t) (name : string) : option string :=
  match map with
  | [] => None
  | (key, _) :: rest => if same_name key name then Some key else find rest name
  end.

(** [map[key]] *)
Fixpoint entry (map : t) (key : string) : option (list string) :=
  match map with
  | [] => None
  | (k, vs) :: rest => if String.eqb k key then Some vs else entry rest key
  end.

(** [map[key] = vs] *)
Fixpoint put (map : t) (key : string) (vs : list string) : t :=
  match map with
  | [] => [(key, vs)]
  | (k, old) :: rest =>
      if String.eqb k key then (k, vs) :: rest else (k, old) :: put rest key vs
  end.

Definition set (map : t) (name value : string) : result t :=
  _ <- validateName name ;;
  _ <- validateValue value ;;
  Ok (put map (default name (find map name)) [value]).

Definition append (map : t) (name value : string) : result t :=
  _ <- validateName name ;;
  _ <- validateValue value ;;
  match find map name with
  | Some key => Ok (put map key (default [] (entry map key) ++ [value]))
  | None => Ok (put map name [value])
  end.

(** [has(name)], without the name check. *)
Definition has (map : t) (name : string) : bool :=
  match find map name with
  | Some _ => true
  | None => false
  end.

(** The values held under [name]: what [get(name)] joins with a comma,
    and nothing when the header is not there. *)
Definition values (map : t) (name : string) : list string :=
  match find map name with
  | Some key => default [] (entry map key)
  | None => []
  end.

(** Both writes change one entry of the map: the one that names the
    header, or a new one at the end. *)
Fixpoint update (f : list string -> list string) (map : t) (name : string) : t :=
  match map with
  | [] => [(name, f [])]
  | (k, vs) :: rest =>
      if same_name k name then (k, f vs) :: rest
      else (k, vs) :: update f rest name
  end.

End Headers.

(** ** The request helper and the response check *)

(** A value of an inbound header: one string, or a list of strings for a
    header received more than once. *)
Inductive HeaderValue : Type :=
| Single (value : string)
| Multiple (values : list string).

(** The request context, as far as these functions read it: its inbound
    headers, when it carries any. *)
Record Ctx : Type := mkCtx {
  ctx_headers : option (gmap string HeaderValue)
}.

(** The shapes of [HeadersInit | undefined]. *)
Inductive HeadersInit : Type :=
| NoHeaders
| Container (h : Headers.t)
| Pairs (pairs : list (string * string))
| Mapping (props : list (string * string)).

(** The argument of [request]: a request initializer with an optional
    context.  An absent body is [Js.Undefined]. *)
Record RequestInit : Type := mkRequestInit {
  method : option string;
  headers : HeadersInit;
  body : Js.Value;
  ctx : option Ctx
}.

(** What [request] returns: the headers are the container, the body field
    is there or deleted, and the context is gone. *)
Record Descriptor : Type := mkDescriptor {
  out_method : option string;
  out_headers : Headers.t;
  out_body : option Js.Value
}.

(** The configuration and execution context that [request] reads:
    [coreEnv.INTERNAL_API_KEY] and the tenant identifier of the running
    context. *)
Record Ambient : Type := mkAmbient {
  INTERNAL_API_KEY : option string;
  tenantId : option string
}.

(** Modelled from the spec: [tenancy.isTenantIdSet] of the backend core
    package, whether a tenant identifier is established in the ambient
    execution context. *)
Definition isTenantIdSet (amb : Ambient) : bool :=
  match tenantId amb with
  | Some _ => true
  | None => false
  end.

(** Modelled from the spec: [tenancy.getTenantId] of the backend core
    package, the established tenant identifier. *)
Definition getTenantId (amb : Ambient) : string :=
  default "" (tenantId amb).

(** A received response: its status, [headers.get("content-type")], and
    what [json()] and [text()] resolve to. *)
Record Response : Type := mkResponse {
  status : Z;
  content_type : option string;
  json : result Js.Value;
  text : string
}.

(** [response.headers.get("content-type")?.includes("json")] *)
Definition indicates_json (response : Response) : bool :=
  match content_type response with
  | Some ct => Js.includes ct "json"
  | None => false
  end.

(** [a || b] on numbers. *)
Definition or_number (a b : Z) : Z := if a =? 0 then b else a.

(** [for (let v of value) request.headers.append(header, v)] *)
Fixpoint appendEach (h : Headers.t) (name : string) (vs : list string)
  : result Headers.t :=
  match vs with
  | [] => Ok h
  | v :: rest => h' <- Headers.append h name v ;; appendEach h' name rest
  end.

(** [for (const [key, value] of headers) headersObj.append(key, value)],
    and the same over the properties of a mapping. *)
Fixpoint appendPairs (h : Headers.t) (pairs : list (string * string))
  : result Headers.t :=
  match pairs with
  | [] => Ok h
  | (key, value) :: rest =>
      h' <- Headers.append h key value ;; appendPairs h' rest
  end.

Definition ensureHeadersIsObject (headers : HeadersInit) : result Headers.t :=
  match headers with
  | Container h => Ok h
  | NoHeaders => Ok Headers.empty
  | Pairs pairs => appendPairs Headers.empty pairs
  | Mapping props => appendPairs Headers.empty props
  end.

Module WorkerRequests.
Section Parameters.

(** [constants.Header] of the backend core package: the names that
    [request] writes under, the name that the correlation facility stamps,
    and [Object.values(constants.Header)], the allow-list. *)
Variable Header_API_KEY : string.
Variable Header_TENANT_ID : string.
Variable Header_CORRELATION_ID : string.
Variable Header_values : list string.

(** The language's [JSON.stringify] and string conversion. *)
Variable JSON_stringify : Js.Value -> string.
Variable ToString : Js.Value -> string.

(** [logging.correlation.setHeader], the correlation facility. *)
Variable correlation_setHeader : Headers.t -> Headers.t.

(** [for (let header of Object.values(constants.Header))]: a header that
    the inbound headers do not have is skipped, a list is appended value
    by value, one string is set. *)
Fixpoint copyHeaders (names : list string) (inbound : gmap string HeaderValue)
  (h : Headers.t) : result Headers.t :=
  match names with
  | [] => Ok h
  | header :: rest =>
      match inbound !! header with
      | None => copyHeaders rest inbound h
      | Some (Multiple vs) =>
          h' <- appendEach h header vs ;; copyHeaders rest inbound h'
      | Some (Single value) =>
          h' <- Headers.set h header value ;; copyHeaders rest inbound h'
      end
  end.

(** [if (!ctx) { ... } else if (ctx.headers) { ... }]: the internal API
    key when there is no context, the allow-listed inbound headers when
    the context carries headers. *)
Definition applyContext (amb : Ambient) (c : option Ctx) (h : Headers.t)
  : result Headers.t :=
  match c with
  | None =>
      match INTERNAL_API_KEY amb with
      | Some key =>
          if Js.truthy (Js.Str key) then Headers.set h Header_API_KEY key
          else Ok h
      | None => Ok h
      end
  | Some c =>
      match ctx_headers c with
      | Some inbound => copyHeaders Header_values inbound h
      | None => Ok h
      end
  end.

(** [if (tenancy.isTenantIdSet()) { ... }] *)
Definition applyTenancy (amb : Ambient) (h : Headers.t) : result Headers.t :=
  if isTenantIdSet amb then Headers.set h Header_TENANT_ID (getTenantId amb)
  else Ok h.

(** [request.body && Object.keys(request.body).length > 0] *)
Definition has_body (b : Js.Value) : bool :=
  Js.truthy b && (0 <? Js.keys_length b)%nat.

(** The content type and the serialized body, or the body deleted. *)
Definition applyBody (b : Js.Value) (h : Headers.t)
  : result (Headers.t * option Js.Value) :=
  if has_body b then
    h' <- Headers.set h "Content-Type" "application/json" ;;
    Ok (h', Some (if Js.typeof_object b then Js.Str (JSON_stringify b) else b))
  else Ok (h, None).

Definition request (amb : Ambient) (req : RequestInit) : result Descriptor :=
  h0 <- ensureHeadersIsObject (headers req) ;;
  h1 <- applyContext amb (ctx req) h0 ;;
  h2 <- applyTenancy amb h1 ;;
  hb <- applyBody (body req) h2 ;;
  Ok {| out_method := method req;
        out_headers := correlation_setHeader (fst hb);
        out_body := snd hb |}.

(** The detail of a failure message. *)
Definition responseErrorMessage (response : Response) : result Js.Value :=
  if indicates_json response then
    error <- json response ;;
    match Js.get_property error "message" with
    | Some message => Ok (Js.nullish message (Js.Str (JSON_stringify error)))
    | None => Throw (TypeError "Cannot read properties of null")
    end
  else Ok (Js.Str (text response)).

Definition checkResponse (response : Response) (errorMsg : string)
  (c : option Ctx) : result Js.Value :=
  if 300 <=? status response then
    detail <- responseErrorMessage response ;;
    let msg := "Unable to " +:+ errorMsg +:+ " - " +:+ ToString detail in
    match c with
    | Some _ => Throw (HttpError (or_number (status response) 500) msg)
    | None => Throw (ThrownValue msg)
    end
  else json response.

(** *** When every write is legal *)

Definition legal_pair (p : string * string) : bool :=
  Headers.legal_name (fst p) && Headers.legal_value (snd p).

Definition legal_init (init : HeadersInit) : bool :=
  match init with
  | Pairs l | Mapping l => forallb legal_pair l
  | NoHeaders | Container _ => true
  end.

Definition legal_inbound (name : string) (v : option HeaderValue) : bool :=
  match v with
  | None => true
  | Some (Single value) => Headers.legal_name name && Headers.legal_value value
  | Some (Multiple vs) =>
      forallb (fun v => Headers.legal_name name && Headers.legal_value v) vs
  end.

Definition legal_context (amb : Ambient) (c : option Ctx) : bool :=
  match c with
  | None =>
      match INTERNAL_API_KEY amb with
      | Some key =>
          if Js.truthy (Js.Str key)
          then Headers.legal_name Header_API_KEY && Headers.legal_value key
          else true
      | None => true
      end
  | Some c =>
      match ctx_headers c with
      | Some inbound =>
          forallb (fun a => legal_inbound a (inbound !! a)) Header_values
      | None => true
      end
  end.

Definition legal_tenancy (amb : Ambient) : bool :=
  match tenantId amb with
  | Some t => Headers.legal_name Header_TENANT_ID && Headers.legal_value t
  | None => true
  end.

(** A header name that the steps after the context branch leave alone. *)
Definition untouched_later (amb : Ambient) (req : RequestInit) (name : string)
  : Prop :=
  (isTenantIdSet amb = true -> Headers.same_name Header_TENANT_ID name = false) /\
  (has_body (body req) = true -> Headers.same_name "Content-Type" name = false) /\
  Headers.same_name Header_CORRELATION_ID name = false.

End Parameters.
End WorkerRequests.

Import WorkerRequests.

(** ** Comparing header containers *)

(** The pairs of a list that are about the header [name]. *)
Definition named (name : string) (p : string * string) : bool :=
  Headers.same_name (fst p) name.

(** A container holds a multiset of pairs: it has the names of the pairs,
    and under each name the values of the pairs with that name, as often
    as they occur. *)
Definition holds (h : Headers.t) (pairs : list (string * string)) : Prop :=
  forall name,
    Headers.has h name = existsb (named name) pairs /\
    Permutation (Headers.values h name) (map snd (List.filter (named name) pairs)).

(** Two containers are equivalent: the same names, and under each name the
    same values with the same multiplicities. *)
Definition equivalent (h1 h2 : Headers.t) : Prop :=
  forall name,
    Headers.has h1 name = Headers.has h2 name /\
    Permutation (Headers.values h1 name) (Headers.values h2 name).

(** Two outcomes are related: both return, with related results, or both
    raise the same failure. *)
Definition related {A : Type} (R : A -> A -> Prop) (r1 r2 : result A) : Prop :=
  match r1, r2 with
  | Ok a, Ok b => R a b
  | Throw f, Throw g => f = g
  | _, _ => False
  end.

(** Two descriptors that differ at most in the order of the values of a
    header and in the case its name was first written in. *)
Definition same_descriptor (d1 d2 : Descriptor) : Prop :=
  out_method d1 = out_method d2 /\
  out_body d1 = out_body d2 /\
  equivalent (out_headers d1) (out_headers d2).

(** A header input presents a multiset of pairs: as an array or a mapping
    that lists it in some order, or as a container that holds it. *)
Definition presents (init : HeadersInit) (pairs : list (string * string)) : Prop :=
  match init with
  | NoHeaders => pairs = []
  | Container h => holds h pairs
  | Pairs l | Mapping l => Permutation l pairs
  end.

(** ** The failure that the response check describes *)

Definition failure_message (label detail : string) : string :=
  "Unable to " +:+ label +:+ " - " +:+ detail.

(** Through the context's error channel with a status when there is a
    context, as a bare value when there is none. *)
Definition signalled (c : option Ctx) (status : Z) (msg : string) : Failure :=
  match c with
  | Some _ => HttpError status msg
  | None => ThrownValue msg
  end.

(** ** An instance of the parameters, for the closed examples *)

Module Sample.

Definition API_KEY : string := "x-budibase-api-key".
Definition TENANT_ID : string := "x-budibase-tenant-id".
Definition CORRELATION_ID : string := "x-budibase-correlation-id".
Definition APP_ID : string := "x-budibase-app-id".
Definition Header_values : list string :=
  [API_KEY; APP_ID; TENANT_ID; CORRELATION_ID].

Definition quote_char : string := String (ascii_of_nat 34) EmptyString.

Fixpoint escape (s : string) : string :=
  match s with
  | EmptyString => EmptyString
  | String c rest =>
      if (N_of_ascii c =? 34)%N || (N_of_ascii c =? 92)%N
      then String (ascii_of_nat 92) (String c (escape rest))
      else String c (escape rest)
  end.

Definition quote (s : string) : string := quote_char +:+ escape s +:+ quote_char.

Definition decimal (n : Z) : string := NilZero.string_of_int (Z.to_int n).

Definition is_undefined (v : Js.Value) : bool :=
  match v with
  | Js.Undefined => true
  | _ => false
  end.

Definition is_nullish (v : Js.Value) : bool :=
  match v with
  | Js.Undefined | Js.Null => true
  | _ => false
  end.

(** [JSON.stringify] on integers and on strings of printable characters. *)
Fixpoint stringify (v : Js.Value) : string :=
  match v with
  | Js.Undefined | Js.Null => "null"
  | Js.Bool true => "true"
  | Js.Bool false => "false"
  | Js.Number n => decimal n
  | Js.Str s => quote s
  | Js.Array elems => "[" +:+ String.concat "," (map stringify elems) +:+ "]"
  | Js.Object props =>
      "{" +:+
      String.concat ","
        (flat_map (fun p =>
           let (k, x) := p : string * Js.Value in
           if is_undefined x then [] else [quote k +:+ ":" +:+ stringify x])
           props)
      +:+ "}"
  end.

(** The string conversion of a template literal, on the same values. *)
Fixpoint toString (v : Js.Value) : string :=
  match v with
  | Js.Undefined => "undefined"
  | Js.Null => "null"
  | Js.Bool true => "true"
  | Js.Bool false => "false"
  | Js.Number n => decimal n
  | Js.Str s => s
  | Js.Array elems =>
      String.concat ","
        (map (fun e => if is_nullish e then "" else toString e) elems)
  | Js.Object _ => "[object Object]"
  end.

(** A correlation facility that stamps a fixed token. *)
Definition setHeader (h : Headers.t) : Headers.t :=
  match Headers.set h CORRELATION_ID "c0ffee" with
  | Ok h' => h'
  | Throw _ => h
  end.

Definition request : Ambient -> RequestInit -> result Descriptor :=
  request API_KEY TENANT_ID Header_values stringify setHeader.

Definition checkResponse : Response -> string -> option Ctx -> result Js.Value :=
  checkResponse stringify toString.

(** Configurations: nothing set, and an API key with a tenant. *)
Definition bare : Ambient := mkAmbient None None.
Definition configured : Ambient := mkAmbient (Some "secret-key") (Some "tenant-1").

(** Inbound headers of a context: an allow-listed name received twice, the
    tenant header, and a name outside the allow-list. *)
Definition inbound : gmap string HeaderValue :=
  <[APP_ID := Multiple ["app_1"; "app_2"]]>
  (<[TENANT_ID := Single "tenant-9"]>
  (<["accept" := Single "text/html"]> ∅)).

Definition with_headers : Ctx := mkCtx (Some inbound).
Definition without_headers : Ctx := mkCtx None.

Definition user : Js.Value := Js.Object [("userId", Js.Str "u1")].

Definition not_found : Response :=
  {| status := 404;
     content_type := Some "application/json; charset=utf-8";
     json := Ok (Js.Object [("message", Js.Str "not found")]);
     text := stringify (Js.Object [("message", Js.Str "not found")]) |}.

Definition null_error : Response :=
  {| status := 500;
     content_type := Some "application/json";
     json := Ok Js.Null;
     text := "null" |}.

Definition bad_gateway : Response :=
  {| status := 502;
     content_type := Some "application/json";
     json := Throw InvalidJson;
     text := "<html>Bad Gateway</html>" |}.

Definition created : Response :=
  {| status := 200;
     content_type := Some "application/json";
     json := Ok (Js.Object [("id", Js.Number 1)]);
     text := stringify (Js.Object [("id", Js.Number 1)]) |}.

Definition tagged : list (string * string) :=
  [("x-tag", "2"); ("Accept", "text/plain"); ("X-Tag", "1")].

End Sample.


(** ** The calls to the worker *)

(** The context as the calls to the worker read it: the context that
    [request] and [checkResponse] take, [ctx.request.body] and
    [ctx.params.userId]. *)
Record RouteCtx : Type := mkRouteCtx {
  koa : Ctx;
  request_body : Js.Value;
  params_userId : string
}.

(** The object that [sendSmtpEmail] serializes, its properties in the
    order of the literal. *)
Definition emailPayload (to from subject contents cc bcc : string)
  (automation : bool) (invite : Js.Value) : Js.Value :=
  Js.Object
    [("email", Js.Str to); ("from", Js.Str from); ("contents", Js.Str contents);
     ("subject", Js.Str subject); ("cc", Js.Str cc); ("bcc", Js.Str bcc);
     ("purpose", Js.Str "custom"); ("automation", Js.Bool automation);
     ("invite", invite)].

(** A body that [request] deletes: one that is falsy or has no keys. *)
Definition droppable (b : Js.Value) : bool :=
  match b with
  | Js.Undefined | Js.Null | Js.Bool _ | Js.Number _ => true
  | Js.Str s => String.eqb s ""
  | Js.Array elems => match elems with [] => true | _ => false end
  | Js.Object props => match props with [] => true | _ => false end
  end.

Definition is_TypeError (f : Failure) : bool :=
  match f with
  | TypeError _ => true
  | _ => false
  end.

Module Callers.
Section Parameters.

Variable Header_API_KEY : string.
Variable Header_TENANT_ID : string.
Variable Header_values : list string.
Variable JSON_stringify : Js.Value -> string.
Variable ToString : Js.Value -> string.
Variable correlation_setHeader : Headers.t -> Headers.t.

(** [env.WORKER_URL], [checkSlashesInUrl] of the utilities,
    [dbCore.getProdAppID] of the backend core package, and the transport:
    what [fetch] resolves to for a URL and a descriptor, or its rejection. *)
Variable WORKER_URL : string.
Variable checkSlashesInUrl : string -> string.
Variable getProdAppID : string -> string.
Variable fetch : string -> Descriptor -> result Response.

Local Abbreviation request :=
  (WorkerRequests.request Header_API_KEY Header_TENANT_ID Header_values
     JSON_stringify correlation_setHeader).
Local Abbreviation checkResponse :=
  (WorkerRequests.checkResponse JSON_stringify ToString).

Definition sendSmtpEmail (amb : Ambient) (to from subject contents cc bcc : string)
  (automation : bool) (invite : Js.Value) : result Js.Value :=
  d <- request amb
         {| method := Some "POST";
            headers := NoHeaders;
            body := Js.Str (JSON_stringify
                      (emailPayload to from subject contents cc bcc automation invite));
            ctx := None |} ;;
  response <- fetch (checkSlashesInUrl (WORKER_URL +:+ "/api/global/email/send")) d ;;
  checkResponse response "send email" None.

Definition removeAppFromUserRoles (amb : Ambient) (c : RouteCtx) (appId : string)
  : result Js.Value :=
  let prodAppId := getProdAppID appId in
  d <- request amb
         {| method := Some "DELETE"; headers := NoHeaders; body := Js.Undefined;
            ctx := Some (koa c) |} ;;
  response <- fetch (checkSlashesInUrl
                (WORKER_URL +:+ "/api/global/roles/" +:+ prodAppId)) d ;;
  checkResponse response "remove app role" None.

Definition allGlobalUsers (amb : Ambient) (c : RouteCtx) : result Js.Value :=
  d <- request amb
         {| method := Some "GET"; headers := NoHeaders; body := Js.Undefined;
            ctx := Some (koa c) |} ;;
  response <- fetch (checkSlashesInUrl (WORKER_URL +:+ "/api/global/users")) d ;;
  checkResponse response "get users" (Some (koa c)).

Definition saveGlobalUser (amb : Ambient) (c : RouteCtx) : result Js.Value :=
  d <- request amb
         {| method := Some "POST"; headers := NoHeaders; body := request_body c;
            ctx := Some (koa c) |} ;;
  response <- fetch (checkSlashesInUrl (WORKER_URL +:+ "/api/global/users")) d ;;
  checkResponse response "save user" (Some (koa c)).

Definition deleteGlobalUser (amb : Ambient) (c : RouteCtx) : result Js.Value :=
  d <- request amb
         {| method := Some "DELETE"; headers := NoHeaders; body := Js.Undefined;
            ctx := Some (koa c) |} ;;
  response <- fetch (checkSlashesInUrl
                (WORKER_URL +:+ "/api/global/users/" +:+ params_userId c)) d ;;
  checkResponse response "delete user" (Some (koa c)).

Definition readGlobalUser (amb : Ambient) (c : RouteCtx) : result Js.Value :=
  d <- request amb
         {| method := Some "GET"; headers := NoHeaders; body := Js.Undefined;
            ctx := Some (koa c) |} ;;
  response <- fetch (checkSlashesInUrl
                (WORKER_URL +:+ "/api/global/users/" +:+ params_userId c)) d ;;
  checkResponse response "get user" (Some (koa c)).

Definition getChecklist (amb : Ambient) : result Js.Value :=
  d <- request amb
         {| method := Some "GET"; headers := NoHeaders; body := Js.Undefined;
            ctx := None |} ;;
  response <- fetch (checkSlashesInUrl
                (WORKER_URL +:+ "/api/global/configs/checklist")) d ;;
  checkResponse response "get checklist" None.

Definition generateApiKey (amb : Ambient) (userId : string) : result Js.Value :=
  d <- request amb
         {| method := Some "POST";
            headers := NoHeaders;
            body := Js.Str (JSON_stringify (Js.Object [("userId", Js.Str userId)]));
            ctx := None |} ;;
  response <- fetch (checkSlashesInUrl (WORKER_URL +:+ "/api/global/self/api_key")) d ;;
  checkResponse response "generate API key" None.

End Parameters.
End Callers.

(** An instance of the transport, for the closed examples: a worker that
    refuses every role removal and serves everything else. *)
Module SampleWorker.

Definition WORKER_URL : string := "http://worker:4002".

(** The base and the paths here join with one slash already. *)
Definition checkSlashesInUrl (url : string) : string := url.

Definition getProdAppID (appId : string) : string := appId.

Definition forbidden : Response :=
  {| status := 403;
     content_type := Some "text/plain";
     json := Throw InvalidJson;
     text := "Forbidden" |}.

Definition fetch (url : string) (d : Descriptor) : result Response :=
  if Js.includes url "/api/global/roles/" then Ok forbidden
  else if Js.includes url "/api/global/users/" then Ok forbidden
  else Ok Sample.created.

Definition route : RouteCtx :=
  {| koa := Sample.with_headers;
     request_body := Sample.user;
     params_userId := "us_1" |}.

Definition sendSmtpEmail :=
  Callers.sendSmtpEmail Sample.API_KEY Sample.TENANT_ID Sample.Header_values
    Sample.stringify Sample.toString Sample.setHeader WORKER_URL checkSlashesInUrl fetch.
Definition removeAppFromUserRoles :=
  Callers.removeAppFromUserRoles Sample.API_KEY Sample.TENANT_ID Sample.Header_values
    Sample.stringify Sample.toString Sample.setHeader WORKER_URL checkSlashesInUrl
    getProdAppID fetch.
Definition saveGlobalUser :=
  Callers.saveGlobalUser Sample.API_KEY Sample.TENANT_ID Sample.Header_values
    Sample.stringify Sample.toString Sample.setHeader WORKER_URL checkSlashesInUrl fetch.
Definition deleteGlobalUser :=
  Callers.deleteGlobalUser Sample.API_KEY Sample.TENANT_ID Sample.Header_values
    Sample.stringify Sample.toString Sample.setHeader WORKER_URL checkSlashesInUrl fetch.
Definition getChecklist :=
  Callers.getChecklist Sample.API_KEY Sample.TENANT_ID Sample.Header_values
    Sample.stringify Sample.toString Sample.setHeader WORKER_URL checkSlashesInUrl fetch.

End SampleWorker.

(** ** The header container: what a write does to what is read *)

Module HeadersFacts.
Import Headers.

Lemma same_name_spec a b :
  same_name a b = true <-> Js.toLowerCase a = Js.toLowerCase b.
Proof. unfold same_name. apply String.eqb_eq. Qed.

Lemma same_name_refl a : same_name a a = true.
Proof. apply same_name_spec. reflexivity. Qed.

Lemma same_name_sym a b : same_name a b = same_name b a.
Proof. unfold same_name. apply String.eqb_sym. Qed.

Lemma same_name_trans a b c :
  same_name a b = true -> same_name a c = same_name b c.
Proof.
  intros Hab. apply same_name_spec in Hab.
  unfold same_name. rewrite Hab. reflexivity.
Qed.

Lemma find_Some map name key :
  find map name = Some key -> same_name key name = true.
Proof.
  induction map as [|[k vs] rest IH]; simpl; [discriminate|].
  destruct (same_name k name) eqn:E.
  - intros [= <-]. exact E.
  - exact IH.
Qed.

Lemma differs_from_match k key name :
  same_name k name = false -> same_name key name = true ->
  String.eqb k key = false.
Proof.
  intros Hk Hkey. apply String.eqb_neq. intros ->. congruence.
Qed.

Lemma put_is_update map name vs :
  put map (default name (find map name)) vs = update (fun _ => vs) map name.
Proof.
  induction map as [|[k old] rest IH]; simpl; [reflexivity|].
  destruct (same_name k name) eqn:E; simpl.
  - rewrite String.eqb_refl. reflexivity.
  - rewrite (differs_from_match k _ name E), IH; [reflexivity|].
    destruct (find rest name) eqn:F; simpl.
    + eapply find_Some, F.
    + apply same_name_refl.
Qed.

Lemma values_cons k vs rest name :
  values ((k, vs) :: rest) name =
  if same_name k name then vs else values rest name.
Proof.
  unfold values. simpl. destruct (same_name k name) eqn:E; simpl.
  - rewrite String.eqb_refl. reflexivity.
  - destruct (find rest name) eqn:F; [|reflexivity].
    simpl. rewrite (differs_from_match k _ name E (find_Some _ _ _ F)).
    reflexivity.
Qed.

Lemma has_cons k vs rest name :
  has ((k, vs) :: rest) name = same_name k name || has rest name.
Proof.
  unfold has. simpl. destruct (same_name k name); reflexivity.
Qed.

Lemma append_is_update map name value :
  match find map name with
  | Some key => put map key (default [] (entry map key) ++ [value])
  | None => put map name [value]
  end = update (fun vs => (vs ++ [value])%list) map name.
Proof.
  induction map as [|[k old] rest IH]; simpl; [reflexivity|].
  destruct (same_name k name) eqn:E; simpl.
  - rewrite String.eqb_refl. simpl. reflexivity.
  - destruct (find rest name) as [key|] eqn:F; simpl.
    + rewrite (differs_from_match k _ name E (find_Some _ _ _ F)).
      rewrite <- IH. reflexivity.
    + rewrite (differs_from_match k name name E (same_name_refl name)).
      rewrite <- IH. reflexivity.
Qed.

Lemma values_update f map name name' :
  values (update f map name) name' =
  if same_name name name' then f (values map name') else values map name'.
Proof.
  induction map as [|[k vs] rest IH]; simpl.
  - rewrite values_cons. reflexivity.
  - destruct (same_name k name) eqn:E; rewrite !values_cons.
    + rewrite <- (same_name_trans k name name' E).
      destruct (same_name k name'); reflexivity.
    + rewrite IH. destruct (same_name k name') eqn:E'; [|reflexivity].
      destruct (same_name name name') eqn:E''; [|reflexivity].
      rewrite (same_name_trans k name' name E'), same_name_sym in E.
      congruence.
Qed.

Lemma has_update f map name name' :
  has (update f map name) name' = same_name name name' || has map name'.
Proof.
  induction map as [|[k vs] rest IH]; simpl.
  - rewrite has_cons. reflexivity.
  - destruct (same_name k name) eqn:E; rewrite !has_cons.
    + rewrite <- (same_name_trans k name name' E).
      destruct (same_name k name'); reflexivity.
    + rewrite IH. destruct (same_name k name'), (same_name name name'); reflexivity.
Qed.

(** A write returns exactly when the name and the value are legal. *)
Lemma set_Ok map name value :
  legal_name name = true -> legal_value value = true ->
  set map name value = Ok (update (fun _ => [value]) map name).
Proof.
  intros Hn Hv. unfold set, validateName, validateValue.
  rewrite Hn, Hv. simpl. rewrite put_is_update. reflexivity.
Qed.

Lemma append_Ok map name value :
  legal_name name = true -> legal_value value = true ->
  append map name value = Ok (update (fun vs => (vs ++ [value])%list) map name).
Proof.
  intros Hn Hv. unfold append, validateName, validateValue.
  rewrite Hn, Hv. simpl. rewrite <- append_is_update.
  destruct (find map name); reflexivity.
Qed.

Lemma set_inv map name value map' :
  set map name value = Ok map' ->
  legal_name name = true /\ legal_value value = true /\
  map' = update (fun _ => [value]) map name.
Proof.
  unfold set, validateName, validateValue.
  destruct (legal_name name); [|discriminate].
  destruct (legal_value value); [|discriminate].
  simpl. rewrite put_is_update. intros [= <-]. auto.
Qed.

Lemma append_inv map name value map' :
  append map name value = Ok map' ->
  legal_name name = true /\ legal_value value = true /\
  map' = update (fun vs => (vs ++ [value])%list) map name.
Proof.
  unfold append, validateName, validateValue.
  destruct (legal_name name); [|discriminate].
  destruct (legal_value value); [|discriminate].
  simpl. pose proof (append_is_update map name value) as U.
  destruct (find map name); intros [= <-]; auto.
Qed.

Lemma values_set map name value map' name' :
  set map name value = Ok map' ->
  values map' name' = if same_name name name' then [value] else values map name'.
Proof.
  intros H. apply set_inv in H as (_ & _ & ->). apply values_update.
Qed.

Lemma values_append map name value map' name' :
  append map name value = Ok map' ->
  values map' name' =
  if same_name name name' then (values map name' ++ [value])%list else values map name'.
Proof.
  intros H. apply append_inv in H as (_ & _ & ->).
  apply (values_update (fun vs => (vs ++ [value])%list)).
Qed.

Lemma has_set map name value map' name' :
  set map name value = Ok map' ->
  has map' name' = same_name name name' || has map name'.
Proof.
  intros H. apply set_inv in H as (_ & _ & ->). apply has_update.
Qed.

Lemma has_append map name value map' name' :
  append map name value = Ok map' ->
  has map' name' = same_name name name' || has map name'.
Proof.
  intros H. apply append_inv in H as (_ & _ & ->). apply has_update.
Qed.

End HeadersFacts.

(** ** The steps of [request] *)

Lemma bind_Ok {A B : Type} (r : result A) (k : A -> result B) (b : B) :
  bind r k = Ok b -> exists a, r = Ok a /\ k a = Ok b.
Proof. destruct r as [a|f]; simpl; [eauto | discriminate]. Qed.

Tactic Notation "bind_inv" hyp(H) "as" ident(a) ident(Ha) :=
  apply bind_Ok in H as (a & Ha & H).

Module StepFacts.
Import Headers HeadersFacts.

Lemma appendEach_values h name vs h' name' :
  appendEach h name vs = Ok h' ->
  values h' name' =
  if same_name name name' then (values h name' ++ vs)%list else values h name'.
Proof.
  revert h. induction vs as [|v rest IH]; simpl; intros h H.
  - injection H as <-. rewrite app_nil_r. destruct (same_name name name'); reflexivity.
  - bind_inv H as h1 Hh. rewrite (IH _ H), (values_append _ _ _ _ name' Hh).
    destruct (same_name name name'); [|reflexivity].
    rewrite <- app_assoc. reflexivity.
Qed.

Lemma appendEach_has h name vs h' name' :
  appendEach h name vs = Ok h' ->
  has h' name' =
  has h name' || (same_name name name' && negb (forallb (fun _ => false) vs)).
Proof.
  revert h. induction vs as [|v rest IH]; simpl; intros h H.
  - injection H as <-. rewrite andb_false_r, orb_false_r. reflexivity.
  - bind_inv H as h1 Hh. rewrite (IH _ H), (has_append _ _ _ _ name' Hh).
    destruct (same_name name name'), (has h name'); reflexivity.
Qed.

Lemma appendEach_Ok h name vs :
  forallb (fun v => legal_name name && legal_value v) vs = true ->
  returns (appendEach h name vs).
Proof.
  revert h. induction vs as [|v rest IH]; simpl; intros h Hl.
  - eexists. reflexivity.
  - apply andb_prop in Hl as [Hp Hrest]. apply andb_prop in Hp as [Hn Hv].
    rewrite (append_Ok _ _ _ Hn Hv). simpl. apply IH, Hrest.
Qed.

Lemma appendEach_legal h name vs h' :
  appendEach h name vs = Ok h' ->
  forallb (fun v => legal_name name && legal_value v) vs = true.
Proof.
  revert h. induction vs as [|v rest IH]; simpl; intros h H; [reflexivity|].
  bind_inv H as h1 Hh. apply append_inv in Hh as (Hn & Hv & _).
  apply andb_true_intro. split; [apply andb_true_intro; auto | apply (IH _ H)].
Qed.

Lemma appendPairs_values h pairs h' name :
  appendPairs h pairs = Ok h' ->
  values h' name = (values h name ++ map snd (List.filter (named name) pairs))%list.
Proof.
  revert h. induction pairs as [|[k v] rest IH]; simpl; intros h H.
  - injection H as <-. rewrite app_nil_r. reflexivity.
  - bind_inv H as h1 Hh. rewrite (IH _ H), (values_append _ _ _ _ name Hh).
    unfold named at 2. simpl. destruct (same_name k name); simpl; [|reflexivity].
    rewrite <- app_assoc. reflexivity.
Qed.

Lemma appendPairs_has h pairs h' name :
  appendPairs h pairs = Ok h' ->
  has h' name = has h name || existsb (named name) pairs.
Proof.
  revert h. induction pairs as [|[k v] rest IH]; simpl; intros h H.
  - injection H as <-. rewrite orb_false_r. reflexivity.
  - bind_inv H as h1 Hh. rewrite (IH _ H), (has_append _ _ _ _ name Hh).
    unfold named at 2. simpl.
    destruct (same_name k name), (has h name); reflexivity.
Qed.

Lemma appendPairs_Ok h pairs :
  forallb legal_pair pairs = true -> returns (appendPairs h pairs).
Proof.
  revert h. induction pairs as [|[k v] rest IH]; simpl; intros h Hl.
  - eexists. reflexivity.
  - apply andb_prop in Hl as [Hp Hrest].
    apply andb_prop in Hp as [Hn Hv]. simpl in Hn, Hv.
    rewrite (append_Ok _ _ _ Hn Hv). simpl. apply IH, Hrest.
Qed.

Lemma appendPairs_legal h pairs h' :
  appendPairs h pairs = Ok h' -> forallb legal_pair pairs = true.
Proof.
  revert h. induction pairs as [|[k v] rest IH]; simpl; intros h H; [reflexivity|].
  bind_inv H as h1 Hh. apply append_inv in Hh as (Hn & Hv & _).
  apply andb_true_intro. split; [apply andb_true_intro; auto | apply (IH _ H)].
Qed.

Lemma appendPairs_holds pairs h :
  appendPairs empty pairs = Ok h -> holds h pairs.
Proof.
  intros H name. split.
  - rewrite (appendPairs_has _ _ _ name H). reflexivity.
  - rewrite (appendPairs_values _ _ _ name H). reflexivity.
Qed.

(** The names that [copyHeaders] does not list keep what they had. *)
Lemma copyHeaders_other names inbound h h' name :
  copyHeaders names inbound h = Ok h' ->
  forallb (fun a => negb (same_name a name)) names = true ->
  has h' name = has h name /\ values h' name = values h name.
Proof.
  revert h. induction names as [|a rest IH]; simpl; intros h H Hn.
  - injection H as <-. auto.
  - apply andb_prop in Hn as [Ha Hrest]. apply negb_true_iff in Ha.
    destruct (inbound !! a) as [[value|vs]|] eqn:E.
    + bind_inv H as h1 Hh. destruct (IH _ H Hrest) as [-> ->].
      rewrite (has_set _ _ _ _ name Hh), (values_set _ _ _ _ name Hh), Ha. auto.
    + bind_inv H as h1 Hh. destruct (IH _ H Hrest) as [-> ->].
      rewrite (appendEach_has _ _ _ _ name Hh), (appendEach_values _ _ _ _ name Hh), Ha.
      rewrite orb_false_r. auto.
    + apply IH; assumption.
Qed.

End StepFacts.

Module CopyFacts.
Import Headers HeadersFacts StepFacts.

Lemma lower_listed (names : list string) a :
  In a names -> In (Js.toLowerCase a) (map Js.toLowerCase names).
Proof. apply in_map. Qed.

Lemma distinct_others hd rest name :
  List.NoDup (map Js.toLowerCase (hd :: rest)) ->
  same_name hd name = true ->
  forallb (fun a => negb (same_name a name)) rest = true.
Proof.
  simpl. intros Hnd Hhd. apply NoDup_cons_iff in Hnd as [Hnotin _].
  apply forallb_forall. intros a Ha. apply negb_true_iff.
  destruct (same_name a name) eqn:E; [|reflexivity].
  exfalso. apply Hnotin.
  apply same_name_spec in Hhd, E. rewrite Hhd, <- E.
  apply lower_listed, Ha.
Qed.

(** What [copyHeaders] leaves under an allow-listed name: nothing new when
    the inbound headers do not have it, its one value, or the values that
    were there followed by each value of its list. *)
Lemma copyHeaders_listed names inbound h h' a name :
  copyHeaders names inbound h = Ok h' ->
  List.NoDup (map Js.toLowerCase names) ->
  In a names -> same_name a name = true ->
  values h' name =
  match inbound !! a with
  | None => values h name
  | Some (Single value) => [value]
  | Some (Multiple vs) => (values h name ++ vs)%list
  end.
Proof.
  revert h. induction names as [|hd rest IH]; intros h H Hnd Hin Ha; [destruct Hin|].
  destruct (same_name hd name) eqn:Ehd.
  - assert (a = hd) as ->.
    { destruct Hin as [->|Hin]; [reflexivity|]. exfalso.
      pose proof (distinct_others _ _ _ Hnd Ehd) as Hall.
      rewrite forallb_forall in Hall. specialize (Hall a Hin).
      rewrite Ha in Hall. discriminate. }
    pose proof (distinct_others _ _ _ Hnd Ehd) as Hall.
    simpl in H. destruct (inbound !! hd) as [[value|vs]|] eqn:E.
    + bind_inv H as h1 Hh. destruct (copyHeaders_other _ _ _ _ _ H Hall) as [_ ->].
      rewrite (values_set _ _ _ _ name Hh), Ehd. reflexivity.
    + bind_inv H as h1 Hh. destruct (copyHeaders_other _ _ _ _ _ H Hall) as [_ ->].
      rewrite (appendEach_values _ _ _ _ name Hh), Ehd. reflexivity.
    + destruct (copyHeaders_other _ _ _ _ _ H Hall) as [_ ->]. reflexivity.
  - assert (In a rest) as Hrest.
    { destruct Hin as [->|Hin]; [congruence | exact Hin]. }
    simpl in Hnd. apply NoDup_cons_iff in Hnd as [_ Hnd].
    simpl in H. destruct (inbound !! hd) as [[value|vs]|] eqn:E.
    + bind_inv H as h1 Hh. rewrite (IH _ H Hnd Hrest Ha).
      rewrite (values_set _ _ _ _ name Hh), Ehd. reflexivity.
    + bind_inv H as h1 Hh. rewrite (IH _ H Hnd Hrest Ha).
      rewrite (appendEach_values _ _ _ _ name Hh), Ehd. reflexivity.
    + apply (IH _ H Hnd Hrest Ha).
Qed.

Lemma copyHeaders_Ok names inbound h :
  forallb (fun a => legal_inbound a (inbound !! a)) names = true ->
  returns (copyHeaders names inbound h).
Proof.
  revert h. induction names as [|a rest IH]; simpl; intros h Hl.
  - eexists. reflexivity.
  - apply andb_prop in Hl as [Ha Hrest]. unfold legal_inbound in Ha.
    destruct (inbound !! a) as [[value|vs]|].
    + apply andb_prop in Ha as [Hn Hv].
      rewrite (set_Ok _ _ _ Hn Hv). simpl. apply IH, Hrest.
    + destruct (appendEach_Ok h a vs Ha) as [h1 ->]. simpl. apply IH, Hrest.
    + apply IH, Hrest.
Qed.

Lemma copyHeaders_legal names inbound h h' :
  copyHeaders names inbound h = Ok h' ->
  forallb (fun a => legal_inbound a (inbound !! a)) names = true.
Proof.
  revert h. induction names as [|a rest IH]; simpl; intros h H; [reflexivity|].
  apply andb_true_intro. unfold legal_inbound at 1.
  destruct (inbound !! a) as [[value|vs]|].
  - bind_inv H as h1 Hh. apply set_inv in Hh as (Hn & Hv & _).
    split; [apply andb_true_intro; auto | apply (IH _ H)].
  - bind_inv H as h1 Hh.
    split; [apply (appendEach_legal _ _ _ _ Hh) | apply (IH _ H)].
  - split; [reflexivity | apply (IH _ H)].
Qed.

End CopyFacts.

Module HoldsFacts.
Import Headers HeadersFacts StepFacts.

Lemma filter_Permutation_named name (l1 l2 : list (string * string)) :
  Permutation l1 l2 ->
  Permutation (List.filter (named name) l1) (List.filter (named name) l2).
Proof.
  induction 1 as [|x l l' _ IH|x y l|l l' l'' _ IH1 _ IH2]; simpl.
  - constructor.
  - destruct (named name x); [constructor|]; exact IH.
  - destruct (named name x), (named name y);
      try reflexivity. apply perm_swap.
  - etransitivity; eassumption.
Qed.

Lemma existsb_Permutation {A : Type} (p : A -> bool) (l1 l2 : list A) :
  Permutation l1 l2 -> existsb p l1 = existsb p l2.
Proof.
  induction 1 as [|x l l' _ IH|x y l|l l' l'' _ IH1 _ IH2]; simpl.
  - reflexivity.
  - rewrite IH. reflexivity.
  - destruct (p x), (p y); reflexivity.
  - congruence.
Qed.

Lemma forallb_Permutation {A : Type} (p : A -> bool) (l1 l2 : list A) :
  Permutation l1 l2 -> forallb p l1 = forallb p l2.
Proof.
  induction 1 as [|x l l' _ IH|x y l|l l' l'' _ IH1 _ IH2]; simpl.
  - reflexivity.
  - rewrite IH. reflexivity.
  - destruct (p x), (p y); reflexivity.
  - congruence.
Qed.

Lemma holds_Permutation h l1 l2 :
  Permutation l1 l2 -> holds h l1 -> holds h l2.
Proof.
  intros Hp Hh name. destruct (Hh name) as [Hhas Hvals]. split.
  - rewrite Hhas. apply existsb_Permutation, Hp.
  - etransitivity; [exact Hvals|].
    apply Permutation_map, filter_Permutation_named, Hp.
Qed.

Lemma holds_equivalent h1 h2 pairs :
  holds h1 pairs -> holds h2 pairs -> equivalent h1 h2.
Proof.
  intros H1 H2 name. destruct (H1 name) as [Ha Hv], (H2 name) as [Ha' Hv']. split.
  - congruence.
  - etransitivity; [exact Hv|]. symmetry. exact Hv'.
Qed.

Lemma holds_empty : holds empty [].
Proof. intros name. split; [reflexivity | constructor]. Qed.

(** Normalizing a legal input gives a container that holds what the input
    presents. *)
Lemma ensureHeadersIsObject_holds init pairs :
  forallb legal_pair pairs = true ->
  presents init pairs ->
  exists h, ensureHeadersIsObject init = Ok h /\ holds h pairs.
Proof.
  intros Hl Hp. destruct init as [|h|l|l]; simpl in *.
  - subst. exists empty. split; [reflexivity | apply holds_empty].
  - exists h. auto.
  - rewrite <- (forallb_Permutation _ _ _ Hp) in Hl.
    destruct (appendPairs_Ok empty l Hl) as [h Hh]. exists h. split; [exact Hh|].
    eapply holds_Permutation; [exact Hp|]. apply appendPairs_holds, Hh.
  - rewrite <- (forallb_Permutation _ _ _ Hp) in Hl.
    destruct (appendPairs_Ok empty l Hl) as [h Hh]. exists h. split; [exact Hh|].
    eapply holds_Permutation; [exact Hp|]. apply appendPairs_holds, Hh.
Qed.

End HoldsFacts.

Module EquivFacts.
Import Headers HeadersFacts StepFacts.

Lemma equivalent_refl h : equivalent h h.
Proof. intros name. split; reflexivity. Qed.

Lemma related_bind {A B : Type} (R : A -> A -> Prop) (S : B -> B -> Prop)
  (r1 r2 : result A) (k1 k2 : A -> result B) :
  related R r1 r2 ->
  (forall a b, R a b -> related S (k1 a) (k2 b)) ->
  related S (bind r1 k1) (bind r2 k2).
Proof.
  destruct r1 as [a|f], r2 as [b|g]; simpl; intros Hr Hk;
    try contradiction; auto.
Qed.

Lemma update_equivalent f h1 h2 name :
  (forall vs1 vs2, Permutation vs1 vs2 -> Permutation (f vs1) (f vs2)) ->
  equivalent h1 h2 -> equivalent (update f h1 name) (update f h2 name).
Proof.
  intros Hf He name'. destruct (He name') as [Hhas Hvals].
  rewrite !has_update, !values_update, Hhas. split; [reflexivity|].
  destruct (same_name name name'); auto.
Qed.

Lemma set_equivalent h1 h2 name value :
  equivalent h1 h2 ->
  related equivalent (set h1 name value) (set h2 name value).
Proof.
  intros He. unfold set, validateName, validateValue.
  destruct (legal_name name); simpl; [|reflexivity].
  destruct (legal_value value); simpl; [|reflexivity].
  rewrite !put_is_update. apply update_equivalent; auto.
Qed.

Lemma append_equivalent h1 h2 name value :
  equivalent h1 h2 ->
  related equivalent (append h1 name value) (append h2 name value).
Proof.
  intros He. unfold append, validateName, validateValue.
  destruct (legal_name name); simpl; [|reflexivity].
  destruct (legal_value value); simpl; [|reflexivity].
  pose proof (append_is_update h1 name value) as U1.
  pose proof (append_is_update h2 name value) as U2.
  destruct (find h1 name), (find h2 name); simpl; rewrite U1, U2;
    apply (update_equivalent (fun vs => (vs ++ [value])%list)); auto;
    intros vs1 vs2 Hp; apply Permutation_app_tail, Hp.
Qed.

Lemma appendEach_equivalent vs h1 h2 name :
  equivalent h1 h2 ->
  related equivalent (appendEach h1 name vs) (appendEach h2 name vs).
Proof.
  revert h1 h2. induction vs as [|v rest IH]; simpl; intros h1 h2 He; [exact He|].
  eapply related_bind; [apply append_equivalent, He|]. intros a b. apply IH.
Qed.

Lemma copyHeaders_equivalent names inbound h1 h2 :
  equivalent h1 h2 ->
  related equivalent (copyHeaders names inbound h1) (copyHeaders names inbound h2).
Proof.
  revert h1 h2. induction names as [|a rest IH]; simpl; intros h1 h2 He; [exact He|].
  destruct (inbound !! a) as [[value|vs]|].
  - eapply related_bind; [apply set_equivalent, He|]. intros x y. apply IH.
  - eapply related_bind; [apply appendEach_equivalent, He|]. intros x y. apply IH.
  - apply IH, He.
Qed.

End EquivFacts.

(** ** What [request] and [checkResponse] guarantee *)

Section Properties.
Import Headers HeadersFacts StepFacts CopyFacts HoldsFacts EquivFacts.

Variable Header_API_KEY : string.
Variable Header_TENANT_ID : string.
Variable Header_CORRELATION_ID : string.
Variable Header_values : list string.
Variable JSON_stringify : Js.Value -> string.
Variable ToString : Js.Value -> string.
Variable correlation_setHeader : Headers.t -> Headers.t.

(** The correlation facility writes at most its own header. *)
Hypothesis correlation_frame : forall h name,
  same_name Header_CORRELATION_ID name = false ->
  has (correlation_setHeader h) name = has h name /\
  values (correlation_setHeader h) name = values h name.

(** The correlation facility does the same to equivalent containers. *)
Hypothesis correlation_respects : forall h1 h2,
  equivalent h1 h2 ->
  equivalent (correlation_setHeader h1) (correlation_setHeader h2).

(** Converting a string to a string gives it back. *)
Hypothesis ToString_Str : forall s, ToString (Js.Str s) = s.

Local Abbreviation applyContext := (applyContext Header_API_KEY Header_values).
Local Abbreviation applyTenancy := (applyTenancy Header_TENANT_ID).
Local Abbreviation applyBody := (applyBody JSON_stringify).
Local Abbreviation request :=
  (request Header_API_KEY Header_TENANT_ID Header_values JSON_stringify
     correlation_setHeader).
Local Abbreviation checkResponse := (checkResponse JSON_stringify ToString).
Local Abbreviation untouched_later :=
  (untouched_later Header_TENANT_ID Header_CORRELATION_ID).

Lemma request_inv amb req d :
  request amb req = Ok d ->
  exists h0 h1 h2 h3,
    ensureHeadersIsObject (headers req) = Ok h0 /\
    applyContext amb (ctx req) h0 = Ok h1 /\
    applyTenancy amb h1 = Ok h2 /\
    applyBody (body req) h2 = Ok (h3, out_body d) /\
    out_headers d = correlation_setHeader h3 /\
    out_method d = method req.
Proof.
  unfold WorkerRequests.request. intros H.
  bind_inv H as h0 H0. bind_inv H as h1 H1. bind_inv H as h2 H2.
  bind_inv H as hb H3. injection H as <-. simpl.
  exists h0, h1, h2, (fst hb). destruct hb. simpl. auto 10.
Qed.

Lemma applyTenancy_values amb h h' name :
  applyTenancy amb h = Ok h' ->
  values h' name =
  if isTenantIdSet amb && same_name Header_TENANT_ID name
  then [getTenantId amb] else values h name.
Proof.
  unfold WorkerRequests.applyTenancy. destruct (isTenantIdSet amb); simpl.
  - apply values_set.
  - intros [= <-]. reflexivity.
Qed.

Lemma applyTenancy_has amb h h' name :
  applyTenancy amb h = Ok h' ->
  has h' name = (isTenantIdSet amb && same_name Header_TENANT_ID name) || has h name.
Proof.
  unfold WorkerRequests.applyTenancy. destruct (isTenantIdSet amb); simpl.
  - apply has_set.
  - intros [= <-]. reflexivity.
Qed.

Lemma applyBody_values b h h' ob name :
  applyBody b h = Ok (h', ob) ->
  values h' name =
  if has_body b && same_name "Content-Type" name
  then ["application/json"] else values h name.
Proof.
  unfold WorkerRequests.applyBody. destruct (has_body b).
  - intros H. bind_inv H as h1 Hh. injection H as <- _.
    apply (values_set _ _ _ _ name Hh).
  - intros [= <- _]. reflexivity.
Qed.

Lemma applyBody_has b h h' ob name :
  applyBody b h = Ok (h', ob) ->
  has h' name = (has_body b && same_name "Content-Type" name) || has h name.
Proof.
  unfold WorkerRequests.applyBody. destruct (has_body b).
  - intros H. bind_inv H as h1 Hh. injection H as <- _.
    apply (has_set _ _ _ _ name Hh).
  - intros [= <- _]. reflexivity.
Qed.

Lemma applyBody_body b h h' ob :
  applyBody b h = Ok (h', ob) ->
  ob = if has_body b
       then Some (if Js.typeof_object b then Js.Str (JSON_stringify b) else b)
       else None.
Proof.
  unfold WorkerRequests.applyBody. destruct (has_body b).
  - intros H. bind_inv H as h1 Hh. injection H as _ <-. reflexivity.
  - intros [= _ <-]. reflexivity.
Qed.

(** The steps after the context branch leave an untouched name as the
    branch left it. *)
Lemma later_steps_frame amb req h1 h2 h3 ob name :
  untouched_later amb req name ->
  applyTenancy amb h1 = Ok h2 ->
  applyBody (body req) h2 = Ok (h3, ob) ->
  has (correlation_setHeader h3) name = has h1 name /\
  values (correlation_setHeader h3) name = values h1 name.
Proof using correlation_frame.
  intros (Ht & Hb & Hc) H2 H3.
  destruct (correlation_frame h3 name Hc) as [-> ->].
  rewrite (applyBody_has _ _ _ _ name H3), (applyBody_values _ _ _ _ name H3).
  rewrite (applyTenancy_has _ _ _ name H2), (applyTenancy_values _ _ _ name H2).
  destruct (has_body (body req)); [rewrite (Hb eq_refl)|];
    (destruct (isTenantIdSet amb); [rewrite (Ht eq_refl)|]); simpl; auto.
Qed.

(** C2: when [request] returns and the body is an object with at least
    one key, the descriptor's [Content-Type] header is
    [application/json] and its body is the JSON serialization of the
    input body; when the body is absent or the empty object, the
    descriptor has no body field. *)
Theorem request_serializes_object_body amb req d :
  same_name Header_CORRELATION_ID "Content-Type" = false ->
  request amb req = Ok d ->
  (Js.nonempty_object (body req) = true ->
     has (out_headers d) "Content-Type" = true /\
     values (out_headers d) "Content-Type" = ["application/json"] /\
     out_body d = Some (Js.Str (JSON_stringify (body req)))) /\
  (body req = Js.Undefined \/ body req = Js.Object [] -> out_body d = None).
Proof using correlation_frame.
  intros Hc H. apply request_inv in H as (h0 & h1 & h2 & h3 & _ & _ & _ & H3 & -> & _).
  destruct (correlation_frame h3 _ Hc) as [-> ->].
  rewrite (applyBody_has _ _ _ _ "Content-Type" H3).
  rewrite (applyBody_values _ _ _ _ "Content-Type" H3).
  rewrite (applyBody_body _ _ _ _ H3). split.
  - intros Hb. destruct (body req) as [| | | | |[|e elems]|[|p props]];
      try discriminate Hb; simpl; auto.
  - intros [-> | ->]; reflexivity.
Qed.

(** C3: when a tenant identifier is established and [request] returns,
    the descriptor's tenant-ID header holds exactly that identifier,
    whatever the request context was and whatever the context branch
    wrote before. *)
Theorem request_sets_tenant amb req d t :
  same_name Header_CORRELATION_ID Header_TENANT_ID = false ->
  same_name "Content-Type" Header_TENANT_ID = false ->
  tenantId amb = Some t ->
  request amb req = Ok d ->
  has (out_headers d) Header_TENANT_ID = true /\
  values (out_headers d) Header_TENANT_ID = [t].
Proof using correlation_frame.
  intros Hc Hct Ht H.
  apply request_inv in H as (h0 & h1 & h2 & h3 & _ & _ & H2 & H3 & -> & _).
  destruct (correlation_frame h3 _ Hc) as [-> ->].
  rewrite (applyBody_has _ _ _ _ _ H3), (applyBody_values _ _ _ _ _ H3), Hct.
  rewrite andb_false_r. simpl.
  rewrite (applyTenancy_has _ _ _ _ H2), (applyTenancy_values _ _ _ _ H2).
  unfold isTenantIdSet, getTenantId. rewrite Ht, same_name_refl. auto.
Qed.

(** C9: with a request context supplied, whether or not it carries
    inbound headers, [request] does not read the configured internal API
    key: two configurations that differ only in that key give the same
    outcome. *)
Theorem request_with_context_ignores_api_key key1 key2 tenant req c :
  ctx req = Some c ->
  request (mkAmbient key1 tenant) req = request (mkAmbient key2 tenant) req.
Proof.
  intros Hc. unfold WorkerRequests.request, WorkerRequests.applyContext.
  rewrite Hc. reflexivity.
Qed.

(** C10: when [request] returns and the body is a non-empty string, the
    descriptor's body is that string itself and its [Content-Type]
    header is [application/json]; a body that is not of object type is
    never replaced, it is kept or deleted. *)
Theorem request_forwards_string_body amb req d :
  same_name Header_CORRELATION_ID "Content-Type" = false ->
  request amb req = Ok d ->
  (forall s, body req = Js.Str s -> s <> "" ->
     out_body d = Some (Js.Str s) /\
     has (out_headers d) "Content-Type" = true /\
     values (out_headers d) "Content-Type" = ["application/json"]) /\
  (Js.typeof_object (body req) = false ->
     out_body d = None \/ out_body d = Some (body req)).
Proof using correlation_frame.
  intros Hc H. apply request_inv in H as (h0 & h1 & h2 & h3 & _ & _ & _ & H3 & -> & _).
  destruct (correlation_frame h3 _ Hc) as [-> ->].
  rewrite (applyBody_has _ _ _ _ "Content-Type" H3).
  rewrite (applyBody_values _ _ _ _ "Content-Type" H3).
  rewrite (applyBody_body _ _ _ _ H3). split.
  - intros s -> Hs. unfold has_body. simpl.
    destruct s as [|ch s]; [congruence|]. simpl. auto.
  - intros Ho. rewrite Ho. destruct (has_body (body req)); auto.
Qed.

(** C6, as the code has it: with no request context, when [request]
    returns, a configured (non-empty) internal API key is the one value
    of the API-key header; with no key configured, [request] adds no
    API-key header: the header is there exactly when the supplied
    headers had it, with the values they had. *)
Theorem request_without_context_api_key amb req h0 d :
  same_name Header_TENANT_ID Header_API_KEY = false ->
  same_name "Content-Type" Header_API_KEY = false ->
  same_name Header_CORRELATION_ID Header_API_KEY = false ->
  ctx req = None ->
  ensureHeadersIsObject (headers req) = Ok h0 ->
  request amb req = Ok d ->
  (forall key, INTERNAL_API_KEY amb = Some key -> key <> "" ->
     has (out_headers d) Header_API_KEY = true /\
     values (out_headers d) Header_API_KEY = [key]) /\
  (INTERNAL_API_KEY amb = None \/ INTERNAL_API_KEY amb = Some "" ->
     has (out_headers d) Header_API_KEY = has h0 Header_API_KEY /\
     values (out_headers d) Header_API_KEY = values h0 Header_API_KEY).
Proof using correlation_frame.
  intros Ht Hct Hc Hctx H0 H.
  apply request_inv in H as (h0' & h1 & h2 & h3 & H0' & H1 & H2 & H3 & -> & _).
  rewrite H0 in H0'. injection H0' as <-.
  assert (untouched_later amb req Header_API_KEY) as Hu by (repeat split; auto).
  destruct (later_steps_frame _ _ _ _ _ _ _ Hu H2 H3) as [-> ->].
  rewrite Hctx in H1. simpl in H1. split.
  - intros key Hk Hne. rewrite Hk in H1.
    destruct key as [|ch key]; [congruence|]. simpl in H1.
    rewrite (has_set _ _ _ _ Header_API_KEY H1), (values_set _ _ _ _ Header_API_KEY H1).
    rewrite same_name_refl. auto.
  - intros [Hk|Hk]; rewrite Hk in H1; simpl in H1; injection H1 as <-; auto.
Qed.

Lemma request_legal_returns amb req :
  legal_init (headers req) = true ->
  legal_context Header_API_KEY Header_values amb (ctx req) = true ->
  legal_tenancy Header_TENANT_ID amb = true ->
  returns (request amb req).
Proof.
  intros Hi Hc Ht. unfold WorkerRequests.request.
  assert (returns (ensureHeadersIsObject (headers req))) as [h0 ->].
  { destruct (headers req) as [|h|l|l]; simpl in *;
      try (eexists; reflexivity); apply appendPairs_Ok, Hi. }
  simpl.
  assert (returns (applyContext amb (ctx req) h0)) as [h1 ->].
  { unfold WorkerRequests.applyContext, legal_context in *.
    destruct (ctx req) as [c|].
    - destruct (ctx_headers c) as [inbound|]; [|eexists; reflexivity].
      apply copyHeaders_Ok, Hc.
    - destruct (INTERNAL_API_KEY amb) as [key|]; [|eexists; reflexivity].
      destruct (Js.truthy (Js.Str key)); [|eexists; reflexivity].
      apply andb_prop in Hc as [Hn Hv].
      rewrite (set_Ok _ _ _ Hn Hv). eexists. reflexivity. }
  simpl.
  assert (returns (applyTenancy amb h1)) as [h2 ->].
  { unfold WorkerRequests.applyTenancy, legal_tenancy, isTenantIdSet, getTenantId in *.
    destruct (tenantId amb) as [t|]; [|eexists; reflexivity].
    apply andb_prop in Ht as [Hn Hv]. simpl.
    rewrite (set_Ok _ _ _ Hn Hv). eexists. reflexivity. }
  simpl.
  assert (returns (applyBody (body req) h2)) as [hb ->].
  { unfold WorkerRequests.applyBody.
    destruct (has_body (body req)); [|eexists; reflexivity].
    rewrite set_Ok by reflexivity. eexists. reflexivity. }
  simpl. eexists. reflexivity.
Qed.

Lemma request_returns_legal amb req :
  returns (request amb req) ->
  legal_init (headers req) = true /\
  legal_context Header_API_KEY Header_values amb (ctx req) = true /\
  legal_tenancy Header_TENANT_ID amb = true.
Proof.
  intros [d H].
  apply request_inv in H as (h0 & h1 & h2 & h3 & H0 & H1 & H2 & _).
  split; [|split].
  - destruct (headers req) as [|h|l|l]; simpl in *; try reflexivity;
      apply (appendPairs_legal _ _ _ H0).
  - unfold WorkerRequests.applyContext, legal_context in *.
    destruct (ctx req) as [c|].
    + destruct (ctx_headers c) as [inbound|]; [|reflexivity].
      apply (copyHeaders_legal _ _ _ _ H1).
    + destruct (INTERNAL_API_KEY amb) as [key|]; [|reflexivity].
      destruct (Js.truthy (Js.Str key)); [|reflexivity].
      apply set_inv in H1 as (-> & -> & _). reflexivity.
  - unfold WorkerRequests.applyTenancy, legal_tenancy, isTenantIdSet, getTenantId in *.
    destruct (tenantId amb) as [t|]; [|reflexivity].
    simpl in H2. apply set_inv in H2 as (-> & -> & _). reflexivity.
Qed.

(** C8, as the code has it: [request] returns exactly when every header
    it writes is legal, that is the names and values of a supplied array
    or mapping, the API key and its header name, the allow-listed inbound
    values and their names, and the tenant identifier and its header
    name; the body may be any value.  Otherwise it raises. *)
Theorem request_returns amb req :
  returns (request amb req) <->
  legal_init (headers req) = true /\
  legal_context Header_API_KEY Header_values amb (ctx req) = true /\
  legal_tenancy Header_TENANT_ID amb = true.
Proof.
  split.
  - apply request_returns_legal.
  - intros (Hi & Hc & Ht). apply request_legal_returns; assumption.
Qed.

(** C4: with a request context that carries inbound headers, when
    [request] returns, a header name that the later steps leave alone
    holds what the supplied headers held if it is outside the
    allow-list or absent from the inbound headers, the inbound value
    alone if that is one string, and what the supplied headers held
    followed by each inbound value if that is a list. *)
Theorem request_copies_allow_list amb req c inbound h0 d name :
  List.NoDup (map Js.toLowerCase Header_values) ->
  ctx req = Some c ->
  ctx_headers c = Some inbound ->
  ensureHeadersIsObject (headers req) = Ok h0 ->
  request amb req = Ok d ->
  untouched_later amb req name ->
  (forallb (fun a => negb (same_name a name)) Header_values = true ->
     has (out_headers d) name = has h0 name /\
     values (out_headers d) name = values h0 name) /\
  (forall a, In a Header_values -> same_name a name = true ->
     values (out_headers d) name =
     match inbound !! a with
     | None => values h0 name
     | Some (Single value) => [value]
     | Some (Multiple vs) => (values h0 name ++ vs)%list
     end).
Proof using correlation_frame.
  intros Hnd Hctx Hin H0 H Hu.
  apply request_inv in H as (h0' & h1 & h2 & h3 & H0' & H1 & H2 & H3 & -> & _).
  rewrite H0 in H0'. injection H0' as <-.
  destruct (later_steps_frame _ _ _ _ _ _ _ Hu H2 H3) as [-> ->].
  rewrite Hctx in H1. simpl in H1. rewrite Hin in H1. split.
  - intros Hout. apply (copyHeaders_other _ _ _ _ _ H1 Hout).
  - intros a Ha Hs. apply (copyHeaders_listed _ _ _ _ _ _ H1 Hnd Ha Hs).
Qed.

(** C7: on a response with status below 300, [checkResponse] gives what
    [response.json()] gives: the parsed value as it is, or the parse
    failure as it is. *)
Theorem checkResponse_success response errorMsg c :
  status response < 300 ->
  checkResponse response errorMsg c = json response.
Proof.
  intros Hs. unfold WorkerRequests.checkResponse.
  destruct (300 <=? status response) eqn:E; [|reflexivity].
  apply Z.leb_le in E. lia.
Qed.

Lemma request_equivalent amb m init1 init2 b c :
  related equivalent (ensureHeadersIsObject init1) (ensureHeadersIsObject init2) ->
  related same_descriptor
    (request amb (mkRequestInit m init1 b c))
    (request amb (mkRequestInit m init2 b c)).
Proof using correlation_respects.
  intros He. unfold WorkerRequests.request. simpl.
  eapply related_bind; [exact He|]. clear He. intros h0 h0' He.
  eapply related_bind with (R := equivalent).
  { unfold WorkerRequests.applyContext. destruct c as [c|].
    - destruct (ctx_headers c); [apply copyHeaders_equivalent, He | exact He].
    - destruct (INTERNAL_API_KEY amb) as [key|]; [|exact He].
      destruct (Js.truthy (Js.Str key)); [apply set_equivalent, He | exact He]. }
  clear He. intros h1 h1' He.
  eapply related_bind with (R := equivalent).
  { unfold WorkerRequests.applyTenancy.
    destruct (isTenantIdSet amb); [apply set_equivalent, He | exact He]. }
  clear He. intros h2 h2' He.
  eapply related_bind
    with (R := fun x y => equivalent (fst x) (fst y) /\ snd x = snd y).
  { unfold WorkerRequests.applyBody. destruct (has_body b); [|simpl; auto].
    eapply related_bind; [apply set_equivalent, He|].
    intros x y Hxy. simpl. auto. }
  intros [h3 ob] [h3' ob'] [He' Hb]. simpl in *. subst ob'.
  split; [reflexivity|]. split; [reflexivity|].
  apply correlation_respects, He'.
Qed.

(** C5: an array of pairs, a plain mapping and an already-built
    container that present the same multiset of legal header pairs, in
    any order, are normalized to equivalent containers, each holding
    exactly that multiset: the same names, and under each name the same
    values with the same multiplicities; and [request] then gives the
    same outcome on them, up to that equivalence of the headers. *)
Theorem request_header_shapes init1 init2 pairs :
  forallb legal_pair pairs = true ->
  presents init1 pairs ->
  presents init2 pairs ->
  (exists h1 h2,
     ensureHeadersIsObject init1 = Ok h1 /\
     ensureHeadersIsObject init2 = Ok h2 /\
     holds h1 pairs /\ holds h2 pairs /\ equivalent h1 h2) /\
  (forall amb m b c,
     related same_descriptor
       (request amb (mkRequestInit m init1 b c))
       (request amb (mkRequestInit m init2 b c))).
Proof using correlation_respects.
  intros Hl Hp1 Hp2.
  destruct (ensureHeadersIsObject_holds _ _ Hl Hp1) as (h1 & E1 & Hh1).
  destruct (ensureHeadersIsObject_holds _ _ Hl Hp2) as (h2 & E2 & Hh2).
  pose proof (holds_equivalent _ _ _ Hh1 Hh2) as He. split.
  - exists h1, h2. auto.
  - intros amb m b c. apply request_equivalent. rewrite E1, E2. exact He.
Qed.

(** C1, as the code has it: on a response with status 300 or more, the
    failure message is [Unable to <label> - <detail>].  When the content
    type does not mention json the detail is the response text.  When it
    does and the body parses to a value other than null, the detail is
    the [message] field of that value as a string, or the serialized
    value when that field is absent or null.  The failure goes through
    the context's error channel with the response's status when a
    context is supplied, and is raised as a bare value when none is. *)
Theorem checkResponse_failure response errorMsg c :
  300 <= status response ->
  (indicates_json response = false ->
     checkResponse response errorMsg c =
     Throw (signalled c (status response)
              (failure_message errorMsg (text response)))) /\
  (forall error,
     indicates_json response = true ->
     json response = Ok error ->
     error <> Js.Null -> error <> Js.Undefined ->
     checkResponse response errorMsg c =
     Throw (signalled c (status response)
              (failure_message errorMsg
                 match Js.member error "message" with
                 | Js.Undefined | Js.Null => JSON_stringify error
                 | Js.Str s => s
                 | message => ToString message
                 end))).
Proof using ToString_Str.
  intros Hs. unfold WorkerRequests.checkResponse, responseErrorMessage.
  assert ((300 <=? status response) = true) as -> by (apply Z.leb_le, Hs).
  assert (or_number (status response) 500 = status response) as Hor.
  { unfold or_number. destruct (status response =? 0) eqn:E; [|reflexivity].
    apply Z.eqb_eq in E. lia. }
  split.
  - intros ->. simpl. rewrite ToString_Str, Hor. destruct c; reflexivity.
  - intros error -> -> Hnull Hundef. simpl.
    assert (Js.get_property error "message" = Some (Js.member error "message")) as ->.
    { destruct error; try reflexivity; congruence. }
    simpl. rewrite Hor.
    destruct (Js.member error "message"); simpl; rewrite ?ToString_Str;
      destruct c; reflexivity.
Qed.

End Properties.

(** ** The instance satisfies what the properties assume *)

Module SampleFacts.
Import Headers HeadersFacts EquivFacts.

Lemma setHeader_frame h name :
  same_name Sample.CORRELATION_ID name = false ->
  has (Sample.setHeader h) name = has h name /\
  values (Sample.setHeader h) name = values h name.
Proof.
  intros Hn. unfold Sample.setHeader. rewrite set_Ok by reflexivity.
  rewrite has_update, values_update, Hn. auto.
Qed.

Lemma setHeader_respects h1 h2 :
  equivalent h1 h2 -> equivalent (Sample.setHeader h1) (Sample.setHeader h2).
Proof.
  intros He. unfold Sample.setHeader. rewrite !set_Ok by reflexivity.
  apply update_equivalent; auto.
Qed.

Lemma toString_Str s : Sample.toString (Js.Str s) = s.
Proof. reflexivity. Qed.

Lemma Header_values_distinct :
  List.NoDup (map Js.toLowerCase Sample.Header_values).
Proof.
  repeat (constructor; [simpl; intuition discriminate|]). constructor.
Qed.

End SampleFacts.

(** ** Closed examples *)

(** A POST with an object body and no headers: the body is serialized and
    the content type is set. *)
Lemma request_serializes_object_body_witness :
  exists d,
    Sample.request Sample.configured
      (mkRequestInit (Some "POST") NoHeaders Sample.user None) = Ok d /\
    Headers.values (out_headers d) "Content-Type" = ["application/json"] /\
    out_body d = Some (Js.Str (Sample.stringify Sample.user)).
Proof.
  assert (exists d, Sample.request Sample.configured
            (mkRequestInit (Some "POST") NoHeaders Sample.user None) = Ok d)
    as [d Hd] by (eexists; vm_compute; reflexivity).
  exists d. split; [exact Hd|].
  destruct (request_serializes_object_body Sample.API_KEY Sample.TENANT_ID Sample.CORRELATION_ID
              Sample.Header_values Sample.stringify Sample.setHeader
              SampleFacts.setHeader_frame _ _ _ eq_refl Hd) as [Hobj _].
  destruct (Hobj eq_refl) as (_ & Hv & Hb). auto.
Defined.

(** The ambient tenant wins over the tenant header of the inbound
    context. *)
Lemma request_sets_tenant_witness :
  tenantId Sample.configured = Some "tenant-1" /\
  Sample.inbound !! Sample.TENANT_ID = Some (Single "tenant-9") /\
  exists d,
    Sample.request Sample.configured
      (mkRequestInit (Some "GET") NoHeaders Js.Undefined (Some Sample.with_headers))
    = Ok d /\
    Headers.values (out_headers d) Sample.TENANT_ID = ["tenant-1"].
Proof.
  split; [reflexivity|]. split; [vm_compute; reflexivity|].
  assert (exists d, Sample.request Sample.configured
            (mkRequestInit (Some "GET") NoHeaders Js.Undefined
               (Some Sample.with_headers)) = Ok d)
    as [d Hd] by (eexists; vm_compute; reflexivity).
  exists d. split; [exact Hd|].
  apply (request_sets_tenant Sample.API_KEY Sample.TENANT_ID Sample.CORRELATION_ID
              Sample.Header_values Sample.stringify Sample.setHeader SampleFacts.setHeader_frame
           Sample.configured _ d "tenant-1" eq_refl eq_refl eq_refl Hd).
Defined.

(** A context without inbound headers: the configured key changes
    nothing. *)
Lemma request_with_context_ignores_api_key_witness :
  let req := mkRequestInit (Some "DELETE") NoHeaders Js.Undefined
               (Some Sample.without_headers) in
  ctx req = Some Sample.without_headers /\
  Sample.request (mkAmbient (Some "secret-key") None) req =
  Sample.request (mkAmbient None None) req.
Proof.
  intros req. split; [reflexivity|].
  apply (request_with_context_ignores_api_key Sample.API_KEY Sample.TENANT_ID
           Sample.Header_values Sample.stringify Sample.setHeader
           (Some "secret-key") None None req Sample.without_headers eq_refl).
Defined.

(** A body that is already JSON text. *)
Lemma request_forwards_string_body_witness :
  exists d,
    Sample.request Sample.bare
      (mkRequestInit (Some "POST") NoHeaders (Js.Str "[1,2]") None) = Ok d /\
    out_body d = Some (Js.Str "[1,2]") /\
    Headers.values (out_headers d) "Content-Type" = ["application/json"].
Proof.
  assert (exists d, Sample.request Sample.bare
            (mkRequestInit (Some "POST") NoHeaders (Js.Str "[1,2]") None) = Ok d)
    as [d Hd] by (eexists; vm_compute; reflexivity).
  exists d. split; [exact Hd|].
  destruct (request_forwards_string_body Sample.API_KEY Sample.TENANT_ID Sample.CORRELATION_ID
              Sample.Header_values Sample.stringify Sample.setHeader
              SampleFacts.setHeader_frame _ _ _ eq_refl Hd) as [Hstr _].
  destruct (Hstr "[1,2]" eq_refl ltac:(discriminate)) as (Hb & _ & Hv). auto.
Defined.

(** No context and a configured key. *)
Lemma request_without_context_api_key_witness :
  let req := mkRequestInit (Some "GET") NoHeaders Js.Undefined None in
  ctx req = None /\
  INTERNAL_API_KEY Sample.configured = Some "secret-key" /\
  exists d,
    Sample.request Sample.configured req = Ok d /\
    Headers.values (out_headers d) Sample.API_KEY = ["secret-key"].
Proof.
  intros req. split; [reflexivity|]. split; [reflexivity|].
  assert (exists d, Sample.request Sample.configured req = Ok d)
    as [d Hd] by (eexists; vm_compute; reflexivity).
  exists d. split; [exact Hd|].
  destruct (request_without_context_api_key Sample.API_KEY Sample.TENANT_ID Sample.CORRELATION_ID
              Sample.Header_values Sample.stringify Sample.setHeader
              SampleFacts.setHeader_frame Sample.configured req Headers.empty d
              eq_refl eq_refl eq_refl eq_refl eq_refl Hd) as [Hkey _].
  apply (Hkey "secret-key" eq_refl). discriminate.
Defined.

(** Legal headers everywhere: [request] returns. *)
Lemma request_returns_witness :
  let req := mkRequestInit (Some "POST") (Pairs Sample.tagged) Sample.user
               (Some Sample.with_headers) in
  legal_init (headers req) = true /\
  legal_context Sample.API_KEY Sample.Header_values Sample.configured (ctx req)
    = true /\
  legal_tenancy Sample.TENANT_ID Sample.configured = true /\
  returns (Sample.request Sample.configured req).
Proof.
  intros req.
  assert (legal_init (headers req) = true) as H1 by (vm_compute; reflexivity).
  assert (legal_context Sample.API_KEY Sample.Header_values Sample.configured
            (ctx req) = true) as H2 by (vm_compute; reflexivity).
  assert (legal_tenancy Sample.TENANT_ID Sample.configured = true) as H3
    by (vm_compute; reflexivity).
  split; [exact H1|]. split; [exact H2|]. split; [exact H3|].
  apply (proj2 (request_returns Sample.API_KEY Sample.TENANT_ID
                  Sample.Header_values Sample.stringify Sample.setHeader
                  Sample.configured req)).
  auto.
Defined.

(** Supplied headers and an inbound context: the allow-listed name that
    came twice is appended value by value after what was supplied, and the
    name outside the allow-list stays as supplied. *)
Lemma request_copies_allow_list_witness :
  let req := mkRequestInit (Some "GET")
               (Pairs [("X-Budibase-App-Id", "app_0"); ("Accept", "text/plain")])
               Js.Undefined (Some Sample.with_headers) in
  Sample.inbound !! Sample.APP_ID = Some (Multiple ["app_1"; "app_2"]) /\
  Sample.inbound !! "accept" = Some (Single "text/html") /\
  exists d,
    Sample.request Sample.bare req = Ok d /\
    Headers.values (out_headers d) Sample.APP_ID = ["app_0"; "app_1"; "app_2"] /\
    Headers.values (out_headers d) "accept" = ["text/plain"].
Proof.
  intros req. split; [vm_compute; reflexivity|]. split; [vm_compute; reflexivity|].
  assert (exists d, Sample.request Sample.bare req = Ok d)
    as [d Hd] by (eexists; vm_compute; reflexivity).
  assert (exists h0, ensureHeadersIsObject (headers req) = Ok h0)
    as [h0 H0] by (eexists; vm_compute; reflexivity).
  exists d. split; [exact Hd|]. split.
  - destruct (request_copies_allow_list Sample.API_KEY Sample.TENANT_ID Sample.CORRELATION_ID
              Sample.Header_values Sample.stringify Sample.setHeader SampleFacts.setHeader_frame
                Sample.bare req Sample.with_headers Sample.inbound h0 d Sample.APP_ID
                SampleFacts.Header_values_distinct eq_refl eq_refl H0 Hd) as [_ Hin].
    + repeat split; intros; reflexivity.
    + rewrite (Hin Sample.APP_ID); [| simpl; auto | reflexivity].
      injection H0 as <-. vm_compute. reflexivity.
  - destruct (request_copies_allow_list Sample.API_KEY Sample.TENANT_ID Sample.CORRELATION_ID
              Sample.Header_values Sample.stringify Sample.setHeader SampleFacts.setHeader_frame
                Sample.bare req Sample.with_headers Sample.inbound h0 d "accept"
                SampleFacts.Header_values_distinct eq_refl eq_refl H0 Hd) as [Hout _].
    + repeat split; intros; reflexivity.
    + destruct (Hout eq_refl) as [_ ->]. injection H0 as <-. reflexivity.
Defined.

(** A created record comes back as parsed. *)
Lemma checkResponse_success_witness :
  status Sample.created < 300 /\
  Sample.checkResponse Sample.created "create row" None =
  Ok (Js.Object [("id", Js.Number 1)]).
Proof.
  split; [reflexivity|].
  apply (checkResponse_success Sample.stringify Sample.toString Sample.created).
  reflexivity.
Defined.

(** One multiset, as an array in another order and as a container built
    from it: the normalized containers are equivalent. *)
Lemma request_header_shapes_witness :
  let init1 := Pairs [("Accept", "text/plain"); ("x-tag", "2"); ("X-Tag", "1")] in
  let init2 := Container [("x-tag", ["2"; "1"]); ("Accept", ["text/plain"])] in
  forallb legal_pair Sample.tagged = true /\
  presents init1 Sample.tagged /\
  presents init2 Sample.tagged /\
  exists h1 h2,
    ensureHeadersIsObject init1 = Ok h1 /\
    ensureHeadersIsObject init2 = Ok h2 /\
    equivalent h1 h2.
Proof.
  intros init1 init2.
  assert (forallb legal_pair Sample.tagged = true) as Hl by reflexivity.
  assert (presents init1 Sample.tagged) as Hp1 by apply perm_swap.
  assert (presents init2 Sample.tagged) as Hp2
    by (apply StepFacts.appendPairs_holds; reflexivity).
  split; [exact Hl|]. split; [exact Hp1|]. split; [exact Hp2|].
  destruct (request_header_shapes Sample.API_KEY Sample.TENANT_ID
              Sample.Header_values Sample.stringify Sample.setHeader
              SampleFacts.setHeader_respects init1 init2 Sample.tagged Hl Hp1 Hp2)
    as [(h1 & h2 & E1 & E2 & _ & _ & He) _].
  exists h1, h2. auto.
Defined.

(** The worker answers 404 with a message: the failure quotes it, through
    the context when there is one and as a bare value when there is none. *)
Lemma checkResponse_failure_witness :
  300 <= status Sample.not_found /\
  Sample.checkResponse Sample.not_found "get user" (Some Sample.with_headers) =
    Throw (HttpError 404 "Unable to get user - not found") /\
  Sample.checkResponse Sample.not_found "get user" None =
    Throw (ThrownValue "Unable to get user - not found").
Proof.
  assert (300 <= status Sample.not_found) as Hs by (simpl; lia).
  split; [exact Hs|]. split.
  - apply (proj2 (checkResponse_failure Sample.stringify Sample.toString
                    SampleFacts.toString_Str Sample.not_found "get user"
                    (Some Sample.with_headers) Hs)
             (Js.Object [("message", Js.Str "not found")]) eq_refl eq_refl);
      discriminate.
  - apply (proj2 (checkResponse_failure Sample.stringify Sample.toString
                    SampleFacts.toString_Str Sample.not_found "get user"
                    None Hs)
             (Js.Object [("message", Js.Str "not found")]) eq_refl eq_refl);
      discriminate.
Defined.

(** ** Where the code departs from a stated property *)

(** C1, counterexample: a 502 response of JSON content type whose body is
    not JSON.  Parsing it fails and the parse failure is what the caller
    gets: no message is composed, whatever the detail. *)
Lemma checkResponse_unparsable_body_propagates :
  300 <= status Sample.bad_gateway /\
  indicates_json Sample.bad_gateway = true /\
  Sample.checkResponse Sample.bad_gateway "get user" None = Throw InvalidJson /\
  (forall detail,
     Sample.checkResponse Sample.bad_gateway "get user" None <>
     Throw (ThrownValue (failure_message "get user" detail))) /\
  (forall detail,
     Sample.checkResponse Sample.bad_gateway "get user" (Some Sample.with_headers) <>
     Throw (HttpError 502 (failure_message "get user" detail))).
Proof.
  split; [simpl; lia|]. repeat split; intros detail; discriminate.
Qed.

(** A 500 response of JSON content type whose body is [null]: the parsed
    body has no [message] field, and reading the field of [null] raises a
    TypeError before any message is composed. *)
Lemma checkResponse_null_body_raises_TypeError :
  300 <= status Sample.null_error /\
  indicates_json Sample.null_error = true /\
  json Sample.null_error = Ok Js.Null /\
  Sample.checkResponse Sample.null_error "get user" None =
    Throw (TypeError "Cannot read properties of null") /\
  Sample.checkResponse Sample.null_error "get user" None <>
    Throw (ThrownValue
             (failure_message "get user" (Sample.stringify Js.Null))).
Proof.
  split; [simpl; lia|]. repeat split. discriminate.
Qed.

(** C6, counterexample: no request context and no internal API key
    configured, and the caller's own headers carry the API-key header: the
    resulting headers contain it. *)
Lemma request_keeps_supplied_api_key :
  let req := mkRequestInit (Some "GET") (Pairs [(Sample.API_KEY, "abc")])
               Js.Undefined None in
  ctx req = None /\
  INTERNAL_API_KEY Sample.bare = None /\
  exists d,
    Sample.request Sample.bare req = Ok d /\
    Headers.has (out_headers d) Sample.API_KEY = true /\
    Headers.values (out_headers d) Sample.API_KEY = ["abc"].
Proof.
  intros req. split; [reflexivity|]. split; [reflexivity|].
  eexists. split; [vm_compute; reflexivity|]. split; reflexivity.
Qed.

(** C8, counterexample: an array of pairs with a header name that is not
    an HTTP token.  The normalization raises a TypeError, and so does
    [request]. *)
Lemma request_raises_on_illegal_header_name :
  let req := mkRequestInit (Some "GET") (Pairs [("bad name", "x")])
               Js.Undefined None in
  ensureHeadersIsObject (headers req) =
    Throw (TypeError "bad name is not a legal HTTP header name") /\
  Sample.request Sample.bare req =
    Throw (TypeError "bad name is not a legal HTTP header name") /\
  ~ returns (Sample.request Sample.bare req).
Proof.
  intros req. split; [reflexivity|]. split; [reflexivity|].
  intros [d Hd]. discriminate Hd.
Qed.

(** ** More on the steps of [request] *)

Module MoreFacts.
Import Headers HeadersFacts StepFacts.

Lemma set_raises map name value f :
  set map name value = Throw f -> is_TypeError f = true.
Proof.
  unfold set, validateName, validateValue.
  destruct (legal_name name); simpl; [|intros [= <-]; reflexivity].
  destruct (legal_value value); simpl; [discriminate | intros [= <-]; reflexivity].
Qed.

Lemma append_raises map name value f :
  append map name value = Throw f -> is_TypeError f = true.
Proof.
  unfold append, validateName, validateValue.
  destruct (legal_name name); simpl; [|intros [= <-]; reflexivity].
  destruct (legal_value value); simpl; [|intros [= <-]; reflexivity].
  destruct (find map name); discriminate.
Qed.

Lemma bind_raises {A B : Type} (r : result A) (k : A -> result B) f :
  bind r k = Throw f -> r = Throw f \/ exists a, r = Ok a /\ k a = Throw f.
Proof. destruct r as [a|g]; simpl; [eauto | intros [= <-]; auto]. Qed.

Lemma appendEach_raises vs h name f :
  appendEach h name vs = Throw f -> is_TypeError f = true.
Proof.
  revert h. induction vs as [|v rest IH]; simpl; intros h H; [discriminate|].
  apply bind_raises in H as [H | (h1 & _ & H)].
  - apply (append_raises _ _ _ _ H).
  - apply (IH _ H).
Qed.

Lemma appendPairs_raises pairs h f :
  appendPairs h pairs = Throw f -> is_TypeError f = true.
Proof.
  revert h. induction pairs as [|[k v] rest IH]; simpl; intros h H; [discriminate|].
  apply bind_raises in H as [H | (h1 & _ & H)].
  - apply (append_raises _ _ _ _ H).
  - apply (IH _ H).
Qed.

Lemma copyHeaders_raises names inbound h f :
  copyHeaders names inbound h = Throw f -> is_TypeError f = true.
Proof.
  revert h. induction names as [|a rest IH]; simpl; intros h H; [discriminate|].
  destruct (inbound !! a) as [[value|vs]|].
  - apply bind_raises in H as [H | (h1 & _ & H)].
    + apply (set_raises _ _ _ _ H).
    + apply (IH _ H).
  - apply bind_raises in H as [H | (h1 & _ & H)].
    + apply (appendEach_raises _ _ _ _ H).
    + apply (IH _ H).
  - apply (IH _ H).
Qed.

(** The loop over the allow-list removes no header. *)
Lemma copyHeaders_keeps names inbound h h' name :
  copyHeaders names inbound h = Ok h' ->
  has h name = true -> has h' name = true.
Proof.
  revert h. induction names as [|a rest IH]; simpl; intros h H Hh.
  - injection H as <-. exact Hh.
  - destruct (inbound !! a) as [[value|vs]|].
    + bind_inv H as h1 H1. apply (IH _ H).
      rewrite (has_set _ _ _ _ name H1), Hh. apply orb_true_r.
    + bind_inv H as h1 H1. apply (IH _ H).
      rewrite (appendEach_has _ _ _ _ name H1), Hh. reflexivity.
    + apply (IH _ H Hh).
Qed.

Lemma has_body_droppable b :
  Js.truthy b && (0 <? Js.keys_length b)%nat = negb (droppable b).
Proof.
  destruct b as [| |b|n|s|elems|props]; simpl; try reflexivity.
  - apply andb_false_r.
  - apply andb_false_r.
  - destruct s; reflexivity.
  - destruct elems; reflexivity.
  - destruct props; reflexivity.
Qed.

End MoreFacts.

Section MoreProperties.
Import Headers HeadersFacts StepFacts CopyFacts MoreFacts.

Variable Header_API_KEY : string.
Variable Header_TENANT_ID : string.
Variable Header_CORRELATION_ID : string.
Variable Header_values : list string.
Variable JSON_stringify : Js.Value -> string.
Variable ToString : Js.Value -> string.
Variable correlation_setHeader : Headers.t -> Headers.t.

(** The correlation facility writes at most its own header. *)
Hypothesis correlation_frame : forall h name,
  same_name Header_CORRELATION_ID name = false ->
  has (correlation_setHeader h) name = has h name /\
  values (correlation_setHeader h) name = values h name.

Local Abbreviation request :=
  (request Header_API_KEY Header_TENANT_ID Header_values JSON_stringify
     correlation_setHeader).
Local Abbreviation checkResponse := (checkResponse JSON_stringify ToString).
Local Abbreviation untouched_later :=
  (untouched_later Header_TENANT_ID Header_CORRELATION_ID).

(** X1: normalizing an array of pairs or a mapping merges the names that
    differ only in case, and keeps under each name the values of its
    pairs in the order of the input. *)
Theorem ensureHeadersIsObject_keeps_order init pairs h name :
  init = Pairs pairs \/ init = Mapping pairs ->
  ensureHeadersIsObject init = Ok h ->
  has h name = existsb (named name) pairs /\
  values h name = map snd (List.filter (named name) pairs).
Proof.
  intros [-> | ->] H; simpl in H;
    rewrite (appendPairs_has _ _ _ name H), (appendPairs_values _ _ _ name H);
    auto.
Qed.

(** X2: [request] neither adds, removes nor changes a header whose name
    is not the API-key header, not in the allow-list, and not written by
    the tenancy, body and correlation steps: the descriptor has it exactly
    as the supplied headers had it. *)
Theorem request_leaves_other_headers amb req h0 d name :
  ensureHeadersIsObject (headers req) = Ok h0 ->
  request amb req = Ok d ->
  same_name Header_API_KEY name = false ->
  forallb (fun a => negb (same_name a name)) Header_values = true ->
  untouched_later amb req name ->
  has (out_headers d) name = has h0 name /\
  values (out_headers d) name = values h0 name.
Proof using correlation_frame.
  intros H0 H Hk Hl Hu.
  apply (request_inv Header_API_KEY) in H
    as (h0' & h1 & h2 & h3 & H0' & H1 & H2 & H3 & -> & _).
  rewrite H0 in H0'. injection H0' as <-.
  destruct (later_steps_frame _ _ _ _ correlation_frame _ _ _ _ _ _ _ Hu H2 H3)
    as [-> ->].
  unfold applyContext in H1. destruct (ctx req) as [c|].
  - destruct (ctx_headers c) as [inbound|]; [|injection H1 as <-; auto].
    apply (copyHeaders_other _ _ _ _ _ H1 Hl).
  - destruct (INTERNAL_API_KEY amb) as [key|]; [|injection H1 as <-; auto].
    destruct (Js.truthy (Js.Str key)); [|injection H1 as <-; auto].
    rewrite (has_set _ _ _ _ name H1), (values_set _ _ _ _ name H1), Hk. auto.
Qed.

(** X3: [request] never drops a header: a name that the supplied headers
    had is in the descriptor's headers, whatever the context, the
    configuration and the body. *)
Theorem request_never_drops_a_header amb req h0 d name :
  ensureHeadersIsObject (headers req) = Ok h0 ->
  request amb req = Ok d ->
  same_name Header_CORRELATION_ID name = false ->
  has h0 name = true ->
  has (out_headers d) name = true.
Proof using correlation_frame.
  intros H0 H Hc Hh.
  apply (request_inv Header_API_KEY) in H
    as (h0' & h1 & h2 & h3 & H0' & H1 & H2 & H3 & -> & _).
  rewrite H0 in H0'. injection H0' as <-.
  destruct (correlation_frame h3 name Hc) as [-> _].
  rewrite (applyBody_has _ _ _ _ _ name H3), (applyTenancy_has _ _ _ _ name H2).
  assert (has h1 name = true) as ->; [|rewrite !orb_true_r; reflexivity].
  unfold applyContext in H1. destruct (ctx req) as [c|].
  - destruct (ctx_headers c) as [inbound|]; [|injection H1 as <-; exact Hh].
    apply (copyHeaders_keeps _ _ _ _ _ H1 Hh).
  - destruct (INTERNAL_API_KEY amb) as [key|]; [|injection H1 as <-; exact Hh].
    destruct (Js.truthy (Js.Str key)); [|injection H1 as <-; exact Hh].
    rewrite (has_set _ _ _ _ name H1), Hh. apply orb_true_r.
Qed.

(** X4: the descriptor has no body exactly when the input body is
    undefined, null, a boolean, a number, the empty string, the empty
    array or the empty object; otherwise its body is a string. *)
Theorem request_body_dropped_or_string amb req d :
  request amb req = Ok d ->
  (out_body d = None <-> droppable (body req) = true) /\
  (droppable (body req) = false -> exists s, out_body d = Some (Js.Str s)).
Proof.
  intros H.
  apply (request_inv Header_API_KEY) in H
    as (h0 & h1 & h2 & h3 & _ & _ & _ & H3 & _ & _).
  rewrite (applyBody_body _ _ _ _ _ H3). unfold has_body.
  rewrite has_body_droppable. destruct (droppable (body req)) eqn:E; simpl.
  - split; [split; auto | discriminate].
  - split; [split; discriminate|]. intros _.
    destruct (body req) as [| |b|n|s|elems|props]; simpl in *;
      try discriminate E; eauto.
Qed.

(** X5: when [request] raises, what it raises is a TypeError of the header
    container. *)
Theorem request_raises_only_TypeError amb req f :
  request amb req = Throw f -> is_TypeError f = true.
Proof.
  unfold WorkerRequests.request. intros H.
  apply bind_raises in H as [H | (h0 & _ & H)].
  { destruct (headers req) as [|h|l|l]; simpl in H; try discriminate H;
      apply (appendPairs_raises _ _ _ H). }
  apply bind_raises in H as [H | (h1 & _ & H)].
  { unfold applyContext in H. destruct (ctx req) as [c|].
    - destruct (ctx_headers c); [apply (copyHeaders_raises _ _ _ _ H) | discriminate H].
    - destruct (INTERNAL_API_KEY amb) as [key|]; [|discriminate H].
      destruct (Js.truthy (Js.Str key)); [apply (set_raises _ _ _ _ H) | discriminate H]. }
  apply bind_raises in H as [H | (h2 & _ & H)].
  { unfold applyTenancy in H.
    destruct (isTenantIdSet amb); [apply (set_raises _ _ _ _ H) | discriminate H]. }
  apply bind_raises in H as [H | (hb & _ & H)]; [|discriminate H].
  unfold applyBody in H. destruct (has_body (body req)); [|discriminate H].
  apply bind_raises in H as [H | (h3 & _ & H)]; [|discriminate H].
  apply (set_raises _ _ _ _ H).
Qed.

(** X6: on a response with status 300 or more [checkResponse] never
    returns a value, whatever the body, the label and the context. *)
Theorem checkResponse_failure_never_returns response errorMsg c :
  300 <= status response ->
  exists f, checkResponse response errorMsg c = Throw f.
Proof.
  intros Hs. unfold WorkerRequests.checkResponse.
  assert ((300 <=? status response) = true) as -> by (apply Z.leb_le, Hs).
  destruct (responseErrorMessage JSON_stringify response) as [detail|f]; simpl.
  - destruct c; eauto.
  - eauto.
Qed.

End MoreProperties.

(** ** The calls to the worker: what is sent and what comes back *)

Section CallerProperties.
Import Headers HeadersFacts StepFacts CopyFacts MoreFacts.

Variable Header_API_KEY : string.
Variable Header_TENANT_ID : string.
Variable Header_CORRELATION_ID : string.
Variable Header_values : list string.
Variable JSON_stringify : Js.Value -> string.
Variable ToString : Js.Value -> string.
Variable correlation_setHeader : Headers.t -> Headers.t.
Variable WORKER_URL : string.
Variable checkSlashesInUrl : string -> string.
Variable getProdAppID : string -> string.
Variable fetch : string -> Descriptor -> result Response.

(** The correlation facility writes at most its own header. *)
Hypothesis correlation_frame : forall h name,
  same_name Header_CORRELATION_ID name = false ->
  has (correlation_setHeader h) name = has h name /\
  values (correlation_setHeader h) name = values h name.

(** The serialization of an object is not the empty string. *)
Hypothesis stringify_object : forall props,
  JSON_stringify (Js.Object props) <> "".

Local Abbreviation request :=
  (request Header_API_KEY Header_TENANT_ID Header_values JSON_stringify
     correlation_setHeader).
Local Abbreviation checkResponse := (checkResponse JSON_stringify ToString).
Local Abbreviation sendSmtpEmail :=
  (Callers.sendSmtpEmail Header_API_KEY Header_TENANT_ID Header_values
     JSON_stringify ToString correlation_setHeader WORKER_URL checkSlashesInUrl fetch).
Local Abbreviation removeAppFromUserRoles :=
  (Callers.removeAppFromUserRoles Header_API_KEY Header_TENANT_ID Header_values
     JSON_stringify ToString correlation_setHeader WORKER_URL checkSlashesInUrl
     getProdAppID fetch).
Local Abbreviation allGlobalUsers :=
  (Callers.allGlobalUsers Header_API_KEY Header_TENANT_ID Header_values
     JSON_stringify ToString correlation_setHeader WORKER_URL checkSlashesInUrl fetch).
Local Abbreviation saveGlobalUser :=
  (Callers.saveGlobalUser Header_API_KEY Header_TENANT_ID Header_values
     JSON_stringify ToString correlation_setHeader WORKER_URL checkSlashesInUrl fetch).
Local Abbreviation deleteGlobalUser :=
  (Callers.deleteGlobalUser Header_API_KEY Header_TENANT_ID Header_values
     JSON_stringify ToString correlation_setHeader WORKER_URL checkSlashesInUrl fetch).
Local Abbreviation readGlobalUser :=
  (Callers.readGlobalUser Header_API_KEY Header_TENANT_ID Header_values
     JSON_stringify ToString correlation_setHeader WORKER_URL checkSlashesInUrl fetch).
Local Abbreviation getChecklist :=
  (Callers.getChecklist Header_API_KEY Header_TENANT_ID Header_values
     JSON_stringify ToString correlation_setHeader WORKER_URL checkSlashesInUrl fetch).
Local Abbreviation generateApiKey :=
  (Callers.generateApiKey Header_API_KEY Header_TENANT_ID Header_values
     JSON_stringify ToString correlation_setHeader WORKER_URL checkSlashesInUrl fetch).

(** A failure whose detail can be read is composed and signalled. *)
Lemma checkResponse_signals response errorMsg c detail :
  300 <= status response ->
  responseErrorMessage JSON_stringify response = Ok detail ->
  checkResponse response errorMsg c =
  Throw (signalled c (status response)
           (failure_message errorMsg (ToString detail))).
Proof.
  intros Hs Hd. unfold WorkerRequests.checkResponse.
  assert ((300 <=? status response) = true) as -> by (apply Z.leb_le, Hs).
  rewrite Hd. simpl.
  assert (or_number (status response) 500 = status response) as ->.
  { unfold or_number. destruct (status response =? 0) eqn:E; [|reflexivity].
    apply Z.eqb_eq in E. lia. }
  destruct c; reflexivity.
Qed.

(** A body that is kept: what the descriptor carries. *)
Lemma request_kept_body amb req d :
  same_name Header_CORRELATION_ID "Content-Type" = false ->
  request amb req = Ok d ->
  has_body (body req) = true ->
  out_method d = method req /\
  out_body d =
    Some (if Js.typeof_object (body req)
          then Js.Str (JSON_stringify (body req)) else body req) /\
  values (out_headers d) "Content-Type" = ["application/json"].
Proof using correlation_frame.
  intros Hc H Hb.
  apply (request_inv Header_API_KEY) in H
    as (h0 & h1 & h2 & h3 & _ & _ & _ & H3 & -> & Hm).
  destruct (correlation_frame h3 _ Hc) as [_ ->].
  rewrite (applyBody_values _ _ _ _ _ "Content-Type" H3).
  rewrite (applyBody_body _ _ _ _ _ H3), Hb. auto.
Qed.

Lemma has_body_string s : s <> "" -> has_body (Js.Str s) = true.
Proof. destruct s; [congruence | reflexivity]. Qed.

(** With a context, the configured key is not read. *)
Lemma request_context_key key1 key2 tenant req c :
  ctx req = Some c ->
  request (mkAmbient key1 tenant) req = request (mkAmbient key2 tenant) req.
Proof.
  intros Hc. unfold WorkerRequests.request, applyContext. rewrite Hc. reflexivity.
Qed.

(** X7: the calls that pass the request context ([removeAppFromUserRoles],
    [allGlobalUsers], [saveGlobalUser], [deleteGlobalUser],
    [readGlobalUser]) do not use the configured internal API key: two
    configurations that differ only in that key give the same outcome. *)
Theorem context_calls_ignore_api_key key1 key2 tenant c appId :
  removeAppFromUserRoles (mkAmbient key1 tenant) c appId =
    removeAppFromUserRoles (mkAmbient key2 tenant) c appId /\
  allGlobalUsers (mkAmbient key1 tenant) c = allGlobalUsers (mkAmbient key2 tenant) c /\
  saveGlobalUser (mkAmbient key1 tenant) c = saveGlobalUser (mkAmbient key2 tenant) c /\
  deleteGlobalUser (mkAmbient key1 tenant) c =
    deleteGlobalUser (mkAmbient key2 tenant) c /\
  readGlobalUser (mkAmbient key1 tenant) c = readGlobalUser (mkAmbient key2 tenant) c.
Proof.
  unfold Callers.removeAppFromUserRoles, Callers.allGlobalUsers,
    Callers.saveGlobalUser, Callers.deleteGlobalUser, Callers.readGlobalUser.
  repeat split;
    rewrite (request_context_key key1 key2 tenant _ (koa c) eq_refl); reflexivity.
Qed.

(** X8: [removeAppFromUserRoles] builds its request from the context but
    checks the response without it: a failure of the worker is raised as
    the bare message.  [deleteGlobalUser], which sends the same descriptor,
    signals the failure through the context with the worker's status. *)
Theorem role_removal_failure_bypasses_context amb c appId d :
  request amb (mkRequestInit (Some "DELETE") NoHeaders Js.Undefined (Some (koa c)))
    = Ok d ->
  (forall response detail,
     fetch (checkSlashesInUrl
              (WORKER_URL +:+ "/api/global/roles/" +:+ getProdAppID appId)) d
       = Ok response ->
     300 <= status response ->
     responseErrorMessage JSON_stringify response = Ok detail ->
     removeAppFromUserRoles amb c appId =
     Throw (ThrownValue (failure_message "remove app role" (ToString detail)))) /\
  (forall response detail,
     fetch (checkSlashesInUrl
              (WORKER_URL +:+ "/api/global/users/" +:+ params_userId c)) d
       = Ok response ->
     300 <= status response ->
     responseErrorMessage JSON_stringify response = Ok detail ->
     deleteGlobalUser amb c =
     Throw (HttpError (status response)
              (failure_message "delete user" (ToString detail)))).
Proof.
  intros Hd. split; intros response detail Hf Hs Hdet.
  - unfold Callers.removeAppFromUserRoles. rewrite Hd. simpl. rewrite Hf. simpl.
    apply (checkResponse_signals _ _ None _ Hs Hdet).
  - unfold Callers.deleteGlobalUser. rewrite Hd. simpl. rewrite Hf. simpl.
    apply (checkResponse_signals _ _ (Some (koa c)) _ Hs Hdet).
Qed.

(** X9: [sendSmtpEmail] and [generateApiKey] serialize their payload
    themselves, and [request] does not serialize it again: when every
    header written is legal, one POST goes to the transport whose body is
    the serialized payload and whose content type is [application/json],
    and the outcome is that of checking the transport's response without a
    context. *)
Theorem service_calls_send_serialized_payload amb to from subject contents cc bcc
  automation invite userId :
  same_name Header_CORRELATION_ID "Content-Type" = false ->
  legal_context Header_API_KEY Header_values amb None = true ->
  legal_tenancy Header_TENANT_ID amb = true ->
  (exists d,
     out_method d = Some "POST" /\
     out_body d =
       Some (Js.Str (JSON_stringify
               (emailPayload to from subject contents cc bcc automation invite))) /\
     values (out_headers d) "Content-Type" = ["application/json"] /\
     sendSmtpEmail amb to from subject contents cc bcc automation invite =
     (response <- fetch (checkSlashesInUrl (WORKER_URL +:+ "/api/global/email/send")) d ;;
      checkResponse response "send email" None)) /\
  (exists d,
     out_method d = Some "POST" /\
     out_body d =
       Some (Js.Str (JSON_stringify (Js.Object [("userId", Js.Str userId)]))) /\
     values (out_headers d) "Content-Type" = ["application/json"] /\
     generateApiKey amb userId =
     (response <- fetch (checkSlashesInUrl (WORKER_URL +:+ "/api/global/self/api_key")) d ;;
      checkResponse response "generate API key" None)).
Proof using correlation_frame stringify_object.
  intros Hc Hl Ht. split.
  - destruct (request_legal_returns Header_API_KEY Header_TENANT_ID Header_values
                JSON_stringify correlation_setHeader amb
                (mkRequestInit (Some "POST") NoHeaders
                   (Js.Str (JSON_stringify
                      (emailPayload to from subject contents cc bcc automation invite)))
                   None) eq_refl Hl Ht) as [d Hd].
    exists d.
    destruct (request_kept_body _ _ _ Hc Hd) as (Hm & Hb & Hv).
    { apply has_body_string, stringify_object. }
    repeat split; try assumption.
    unfold Callers.sendSmtpEmail. rewrite Hd. reflexivity.
  - destruct (request_legal_returns Header_API_KEY Header_TENANT_ID Header_values
                JSON_stringify correlation_setHeader amb
                (mkRequestInit (Some "POST") NoHeaders
                   (Js.Str (JSON_stringify (Js.Object [("userId", Js.Str userId)])))
                   None) eq_refl Hl Ht) as [d Hd].
    exists d.
    destruct (request_kept_body _ _ _ Hc Hd) as (Hm & Hb & Hv).
    { apply has_body_string, stringify_object. }
    repeat split; try assumption.
    unfold Callers.generateApiKey. rewrite Hd. reflexivity.
Qed.

(** X10: [saveGlobalUser] forwards the body of the inbound request: when
    that body is an object or an array with at least one key and the
    descriptor is built, its body is the serialization of the inbound
    body, under the content type [application/json]; when the inbound
    body is absent or empty, the POST carries no body.  In both cases the
    response is checked with the context. *)
Theorem saveGlobalUser_forwards_inbound_body amb c d :
  same_name Header_CORRELATION_ID "Content-Type" = false ->
  request amb (mkRequestInit (Some "POST") NoHeaders (request_body c) (Some (koa c)))
    = Ok d ->
  saveGlobalUser amb c =
    (response <- fetch (checkSlashesInUrl (WORKER_URL +:+ "/api/global/users")) d ;;
     checkResponse response "save user" (Some (koa c))) /\
  out_method d = Some "POST" /\
  (Js.nonempty_object (request_body c) = true ->
     out_body d = Some (Js.Str (JSON_stringify (request_body c))) /\
     values (out_headers d) "Content-Type" = ["application/json"]) /\
  (droppable (request_body c) = true -> out_body d = None).
Proof using correlation_frame.
  intros Hc Hd. split; [|split; [|split]].
  - unfold Callers.saveGlobalUser. rewrite Hd. reflexivity.
  - apply (request_inv Header_API_KEY) in Hd
      as (h0 & h1 & h2 & h3 & _ & _ & _ & _ & _ & Hm). exact Hm.
  - intros Hb.
    assert (has_body (request_body c) = true) as Hhas.
    { destruct (request_body c) as [| | | | |[|e l]|[|p l]];
        try discriminate Hb; reflexivity. }
    destruct (request_kept_body _ _ _ Hc Hd Hhas) as (_ & Hbody & Hv).
    simpl in Hbody.
    destruct (request_body c) as [| | | | |[|e l]|[|p l]];
      try discriminate Hb; auto.
  - intros Hdrop.
    apply (request_inv Header_API_KEY) in Hd
      as (h0 & h1 & h2 & h3 & _ & _ & _ & H3 & _ & _).
    rewrite (applyBody_body _ _ _ _ _ H3). simpl. unfold has_body.
    rewrite has_body_droppable, Hdrop. reflexivity.
Qed.

(** X11: [getChecklist] is a call without a context: when every header
    written is legal, one GET without a body goes to the transport, under
    the configured internal API key when there is one, and the outcome is
    that of checking the transport's response without a context. *)
Theorem getChecklist_uses_api_key amb :
  same_name Header_TENANT_ID Header_API_KEY = false ->
  same_name Header_CORRELATION_ID Header_API_KEY = false ->
  legal_context Header_API_KEY Header_values amb None = true ->
  legal_tenancy Header_TENANT_ID amb = true ->
  exists d,
    out_method d = Some "GET" /\
    out_body d = None /\
    (forall key, INTERNAL_API_KEY amb = Some key -> key <> "" ->
       values (out_headers d) Header_API_KEY = [key]) /\
    (INTERNAL_API_KEY amb = None -> has (out_headers d) Header_API_KEY = false) /\
    getChecklist amb =
    (response <- fetch (checkSlashesInUrl
                   (WORKER_URL +:+ "/api/global/configs/checklist")) d ;;
     checkResponse response "get checklist" None).
Proof using correlation_frame.
  intros Ht Hc Hl Hten.
  destruct (request_legal_returns Header_API_KEY Header_TENANT_ID Header_values
              JSON_stringify correlation_setHeader amb
              (mkRequestInit (Some "GET") NoHeaders Js.Undefined None)
              eq_refl Hl Hten) as [d Hd].
  exists d. pose proof Hd as Hd'.
  apply (request_inv Header_API_KEY) in Hd
    as (h0 & h1 & h2 & h3 & H0 & H1 & H2 & H3 & Hh & Hm).
  simpl in H0. injection H0 as <-.
  assert (untouched_later Header_TENANT_ID Header_CORRELATION_ID amb
            (mkRequestInit (Some "GET") NoHeaders Js.Undefined None)
            Header_API_KEY) as Hu.
  { repeat split; auto. discriminate. }
  destruct (later_steps_frame _ _ _ _ correlation_frame _ _ _ _ _ _ _ Hu H2 H3)
    as [Ehas Evals].
  rewrite Hh. split; [exact Hm|]. split.
  { rewrite (applyBody_body _ _ _ _ _ H3). reflexivity. }
  simpl in H1. split; [|split].
  - intros key Hk Hne. rewrite Evals. rewrite Hk in H1.
    destruct key as [|ch key]; [congruence|]. simpl in H1.
    rewrite (values_set _ _ _ _ Header_API_KEY H1), same_name_refl. reflexivity.
  - intros Hk. rewrite Ehas. rewrite Hk in H1. injection H1 as <-. reflexivity.
  - unfold Callers.getChecklist. rewrite Hd'. reflexivity.
Qed.

End CallerProperties.

(** ** Closed examples of the further properties *)

Module SampleWorkerFacts.

Lemma stringify_object props : Sample.stringify (Js.Object props) <> "".
Proof. simpl. discriminate. Qed.

End SampleWorkerFacts.

(** Three pairs, two of them under one name in different case. *)
Lemma ensureHeadersIsObject_keeps_order_witness :
  exists h,
    ensureHeadersIsObject (Pairs Sample.tagged) = Ok h /\
    Headers.has h "X-TAG" = true /\
    Headers.values h "X-TAG" = ["2"; "1"].
Proof.
  assert (exists h, ensureHeadersIsObject (Pairs Sample.tagged) = Ok h)
    as [h Hh] by (eexists; vm_compute; reflexivity).
  exists h. split; [exact Hh|].
  apply (ensureHeadersIsObject_keeps_order (Pairs Sample.tagged) Sample.tagged h
           "X-TAG" (or_introl eq_refl) Hh).
Defined.

(** A supplied [Accept] header passes a context whose inbound headers
    have one of their own. *)
Lemma request_leaves_other_headers_witness :
  let req := mkRequestInit (Some "GET") (Pairs [("Accept", "text/plain")])
               Js.Undefined (Some Sample.with_headers) in
  Sample.inbound !! "accept" = Some (Single "text/html") /\
  exists d,
    Sample.request Sample.configured req = Ok d /\
    Headers.has (out_headers d) "accept" = true /\
    Headers.values (out_headers d) "accept" = ["text/plain"].
Proof.
  intros req. split; [vm_compute; reflexivity|].
  assert (exists d, Sample.request Sample.configured req = Ok d)
    as [d Hd] by (eexists; vm_compute; reflexivity).
  assert (exists h0, ensureHeadersIsObject (headers req) = Ok h0)
    as [h0 H0] by (eexists; vm_compute; reflexivity).
  exists d. split; [exact Hd|].
  destruct (request_leaves_other_headers Sample.API_KEY Sample.TENANT_ID
              Sample.CORRELATION_ID Sample.Header_values Sample.stringify
              Sample.setHeader SampleFacts.setHeader_frame
              Sample.configured req h0 d "accept" H0 Hd eq_refl eq_refl)
    as [Hhas Hvals].
  { repeat split; intros; reflexivity. }
  rewrite Hhas, Hvals. injection H0 as <-. split; reflexivity.
Defined.

(** The supplied header is still there after every step. *)
Lemma request_never_drops_a_header_witness :
  let req := mkRequestInit (Some "POST") (Pairs Sample.tagged) Sample.user
               (Some Sample.with_headers) in
  exists h0 d,
    ensureHeadersIsObject (headers req) = Ok h0 /\
    Sample.request Sample.configured req = Ok d /\
    Headers.has h0 "x-tag" = true /\
    Headers.has (out_headers d) "x-tag" = true.
Proof.
  intros req.
  assert (exists d, Sample.request Sample.configured req = Ok d)
    as [d Hd] by (eexists; vm_compute; reflexivity).
  assert (exists h0, ensureHeadersIsObject (headers req) = Ok h0)
    as [h0 H0] by (eexists; vm_compute; reflexivity).
  assert (Headers.has h0 "x-tag" = true) as Hh
    by (injection H0 as <-; reflexivity).
  exists h0, d. split; [exact H0|]. split; [exact Hd|]. split; [exact Hh|].
  apply (request_never_drops_a_header Sample.API_KEY Sample.TENANT_ID
           Sample.CORRELATION_ID Sample.Header_values Sample.stringify
           Sample.setHeader SampleFacts.setHeader_frame
           Sample.configured req h0 d "x-tag" H0 Hd eq_refl Hh).
Defined.

(** A number as the body: nothing is sent. *)
Lemma request_body_dropped_or_string_witness :
  exists d,
    Sample.request Sample.bare
      (mkRequestInit (Some "POST") NoHeaders (Js.Number 42) None) = Ok d /\
    out_body d = None.
Proof.
  assert (exists d, Sample.request Sample.bare
            (mkRequestInit (Some "POST") NoHeaders (Js.Number 42) None) = Ok d)
    as [d Hd] by (eexists; vm_compute; reflexivity).
  exists d. split; [exact Hd|].
  apply (proj1 (request_body_dropped_or_string Sample.API_KEY Sample.TENANT_ID
                  Sample.Header_values Sample.stringify Sample.setHeader
                  Sample.bare _ d Hd)).
  reflexivity.
Defined.

(** A tenant identifier with a line break in it. *)
Lemma request_raises_only_TypeError_witness :
  let amb := mkAmbient None (Some (String (ascii_of_nat 10) "tenant")) in
  let req := mkRequestInit (Some "GET") NoHeaders Js.Undefined None in
  exists f, Sample.request amb req = Throw f /\ is_TypeError f = true.
Proof.
  intros amb req.
  assert (exists f, Sample.request amb req = Throw f)
    as [f Hf] by (eexists; vm_compute; reflexivity).
  exists f. split; [exact Hf|].
  apply (request_raises_only_TypeError Sample.API_KEY Sample.TENANT_ID
           Sample.Header_values Sample.stringify Sample.setHeader amb req f Hf).
Defined.

(** A 404 never comes back as a value. *)
Lemma checkResponse_failure_never_returns_witness :
  300 <= status Sample.not_found /\
  exists f, Sample.checkResponse Sample.not_found "get user" None = Throw f.
Proof.
  assert (300 <= status Sample.not_found) as Hs by (simpl; lia).
  split; [exact Hs|].
  apply (checkResponse_failure_never_returns Sample.stringify Sample.toString
           Sample.not_found "get user" None Hs).
Defined.

(** The worker refuses both calls with the same response: the role
    removal raises the bare message, the user deletion goes through the
    context with the status. *)
Lemma role_removal_failure_bypasses_context_witness :
  SampleWorker.removeAppFromUserRoles Sample.configured SampleWorker.route "app_1" =
    Throw (ThrownValue "Unable to remove app role - Forbidden") /\
  SampleWorker.deleteGlobalUser Sample.configured SampleWorker.route =
    Throw (HttpError 403 "Unable to delete user - Forbidden").
Proof.
  assert (exists d, Sample.request Sample.configured
            (mkRequestInit (Some "DELETE") NoHeaders Js.Undefined
               (Some (koa SampleWorker.route))) = Ok d)
    as [d Hd] by (eexists; vm_compute; reflexivity).
  destruct (role_removal_failure_bypasses_context Sample.API_KEY Sample.TENANT_ID
              Sample.Header_values Sample.stringify Sample.toString Sample.setHeader
              SampleWorker.WORKER_URL SampleWorker.checkSlashesInUrl
              SampleWorker.getProdAppID SampleWorker.fetch
              Sample.configured SampleWorker.route "app_1" d Hd) as [Hrole Huser].
  split.
  - apply (Hrole SampleWorker.forbidden (Js.Str "Forbidden")).
    + reflexivity.
    + simpl. lia.
    + reflexivity.
  - apply (Huser SampleWorker.forbidden (Js.Str "Forbidden")).
    + reflexivity.
    + simpl. lia.
    + reflexivity.
Defined.

(** An email and a key request under the configured key. *)
Lemma service_calls_send_serialized_payload_witness :
  legal_context Sample.API_KEY Sample.Header_values Sample.configured None = true /\
  legal_tenancy Sample.TENANT_ID Sample.configured = true /\
  exists d,
    out_body d =
      Some (Js.Str (Sample.stringify
              (emailPayload "a@b.c" "x@y.z" "Hi" "Hello" "" "" false Js.Undefined))) /\
    SampleWorker.sendSmtpEmail Sample.configured "a@b.c" "x@y.z" "Hi" "Hello" "" ""
      false Js.Undefined =
    (response <- SampleWorker.fetch
                   (SampleWorker.checkSlashesInUrl
                      (SampleWorker.WORKER_URL +:+ "/api/global/email/send")) d ;;
     Sample.checkResponse response "send email" None).
Proof.
  assert (legal_context Sample.API_KEY Sample.Header_values Sample.configured None
          = true) as Hl by reflexivity.
  assert (legal_tenancy Sample.TENANT_ID Sample.configured = true) as Ht
    by reflexivity.
  split; [exact Hl|]. split; [exact Ht|].
  destruct (service_calls_send_serialized_payload Sample.API_KEY Sample.TENANT_ID
              Sample.CORRELATION_ID Sample.Header_values Sample.stringify
              Sample.toString Sample.setHeader SampleWorker.WORKER_URL
              SampleWorker.checkSlashesInUrl SampleWorker.fetch
              SampleFacts.setHeader_frame SampleWorkerFacts.stringify_object
              Sample.configured "a@b.c" "x@y.z" "Hi" "Hello" "" "" false Js.Undefined
              "us_1" eq_refl Hl Ht) as [(d & _ & Hb & _ & Hcall) _].
  exists d. split; [exact Hb | exact Hcall].
Defined.

(** The inbound body of the route is what the worker gets. *)
Lemma saveGlobalUser_forwards_inbound_body_witness :
  Js.nonempty_object (request_body SampleWorker.route) = true /\
  exists d,
    Sample.request Sample.configured
      (mkRequestInit (Some "POST") NoHeaders (request_body SampleWorker.route)
         (Some (koa SampleWorker.route))) = Ok d /\
    out_body d = Some (Js.Str (Sample.stringify Sample.user)) /\
    SampleWorker.saveGlobalUser Sample.configured SampleWorker.route =
      Ok (Js.Object [("id", Js.Number 1)]).
Proof.
  split; [reflexivity|].
  assert (exists d, Sample.request Sample.configured
            (mkRequestInit (Some "POST") NoHeaders (request_body SampleWorker.route)
               (Some (koa SampleWorker.route))) = Ok d)
    as [d Hd] by (eexists; vm_compute; reflexivity).
  exists d. split; [exact Hd|].
  destruct (saveGlobalUser_forwards_inbound_body Sample.API_KEY Sample.TENANT_ID
              Sample.CORRELATION_ID Sample.Header_values Sample.stringify
              Sample.toString Sample.setHeader SampleWorker.WORKER_URL
              SampleWorker.checkSlashesInUrl SampleWorker.fetch
              SampleFacts.setHeader_frame Sample.configured SampleWorker.route d
              eq_refl Hd) as (Hcall & _ & Hobj & _).
  destruct (Hobj eq_refl) as [Hb _]. split; [exact Hb|].
  unfold SampleWorker.saveGlobalUser. rewrite Hcall. reflexivity.
Defined.

(** The checklist is fetched under the configured key. *)
Lemma getChecklist_uses_api_key_witness :
  INTERNAL_API_KEY Sample.configured = Some "secret-key" /\
  exists d,
    Headers.values (out_headers d) Sample.API_KEY = ["secret-key"] /\
    out_body d = None /\
    SampleWorker.getChecklist Sample.configured =
    (response <- SampleWorker.fetch
                   (SampleWorker.checkSlashesInUrl
                      (SampleWorker.WORKER_URL +:+ "/api/global/configs/checklist")) d ;;
     Sample.checkResponse response "get checklist" None).
Proof.
  split; [reflexivity|].
  destruct (getChecklist_uses_api_key Sample.API_KEY Sample.TENANT_ID
              Sample.CORRELATION_ID Sample.Header_values Sample.stringify
              Sample.toString Sample.setHeader SampleWorker.WORKER_URL
              SampleWorker.checkSlashesInUrl SampleWorker.fetch
              SampleFacts.setHeader_frame Sample.configured
              eq_refl eq_refl eq_refl eq_refl) as (d & _ & Hb & Hkey & _ & Hcall).
  exists d. split; [|split; [exact Hb | exact Hcall]].
  apply (Hkey "secret-key" eq_refl). discriminate.
Defined.
